(** * generate_publications.py: record formatter and marker splicer

    A shallow embedding of [src/generate_publications.py] and the
    properties its specification states about it.

    Python's [str] is a sequence of Unicode code points; it is modelled as
    [list N], one number per code point.  ASCII literals of the source are
    written [u "..."]; the few non-ASCII literals (accented letters, the
    arrow emoji) are spelled out as code points. *)

From Stdlib Require Import ZArith NArith Lia Strings.String Strings.Ascii.
From Stdlib Require Import Sorting.Sorted Sorting.Permutation.
From stdpp Require Import base list gmap sorting.

Local Open Scope N_scope.
Local Open Scope nat_scope.

(** ** Python strings *)

Abbreviation str := (list N).

(** The code points of an ASCII literal. *)
Definition u (s : string) : str :=
  map N_of_ascii (list_ascii_of_string s).

(** The double quote, which the source writes inside single-quoted literals. *)
Definition dquote : str := [34%N].
(** The newline, written with a backslash escape in the source. *)
Definition nl : str := [10%N].
(** The backslash. *)
Definition bs : str := [92%N].

Module Py.

(** [s.startswith(m)] *)
Fixpoint starts_with (m s : str) : bool :=
  match m, s with
  | [], _ => true
  | _ :: _, [] => false
  | a :: m', b :: s' => if N.eqb a b then starts_with m' s' else false
  end.

(** Least [k] such that [m] is a prefix of [s[k:]], if there is one. *)
Fixpoint find_nat (s m : str) : option nat :=
  if starts_with m s then Some 0
  else match s with
       | [] => None
       | _ :: s' => S <$> find_nat s' m
       end.

(** How Python turns a slice or search bound into a position of [s]:
    a negative bound counts from the end, and is clipped at 0. *)
Definition adjust_index (s : str) (i : Z) : Z :=
  let n := Z.of_nat (length s) in
  if (i <? 0)%Z then Z.max 0 (i + n) else i.

(** [s.find(sub, start)]: the lowest index at or after [start] where
    [sub] occurs, or -1. *)
Definition find_from (s sub : str) (start : Z) : Z :=
  let i := adjust_index s start in
  if (Z.of_nat (length s) <? i)%Z then (-1)%Z
  else match find_nat (drop (Z.to_nat i) s) sub with
       | Some k => (i + Z.of_nat k)%Z
       | None => (-1)%Z
       end.

(** [s.find(sub)] *)
Definition find (s sub : str) : Z := find_from s sub 0.

(** [s[:stop]] *)
Definition slice_to (s : str) (stop : Z) : str :=
  take (Z.to_nat (adjust_index s stop)) s.

(** [s[start:]] *)
Definition slice_from (s : str) (start : Z) : str :=
  drop (Z.to_nat (adjust_index s start)) s.

(** [sub in s] *)
Definition contains (sub s : str) : bool :=
  match find_nat s sub with Some _ => true | None => false end.

(** Left-to-right replacement of the non-overlapping occurrences of a
    non-empty [old]; [skip] counts the characters of a matched
    occurrence that are still to be passed over. *)
Fixpoint replace_go (old new : str) (skip : nat) (s : str) : str :=
  match s with
  | [] => []
  | c :: s' =>
      match skip with
      | S k => replace_go old new k s'
      | O =>
          if starts_with old s
          then new ++ replace_go old new (length old - 1) s'
          else c :: replace_go old new 0 s'
      end
  end.

(** [s.replace(old, new)]; an empty [old] matches before every
    character and at the end. *)
Definition replace (s old new : str) : str :=
  match old with
  | [] => new ++ flat_map (fun c => c :: new) s
  | _ :: _ => replace_go old new 0 s
  end.

(** [s.split(sep)] for a non-empty [sep] (Python raises on an empty one;
    the source only passes a literal). *)
Fixpoint split_go (sep : str) (skip : nat) (s : str) : list str :=
  match s with
  | [] => [[]]
  | c :: s' =>
      match skip with
      | S k => split_go sep k s'
      | O =>
          if starts_with sep s
          then [] :: split_go sep (length sep - 1) s'
          else match split_go sep 0 s' with
               | h :: t => (c :: h) :: t
               | [] => [[c]]
               end
      end
  end.

Definition split (s sep : str) : list str := split_go sep 0 s.

(** [sep.join(parts)] *)
Fixpoint join (sep : str) (parts : list str) : str :=
  match parts with
  | [] => []
  | [p] => p
  | p :: ps => p ++ sep ++ join sep ps
  end.

Fixpoint lstrip_by (p : N -> bool) (s : str) : str :=
  match s with
  | [] => []
  | c :: s' => if p c then lstrip_by p s' else s
  end.

Definition strip_by (p : N -> bool) (s : str) : str :=
  rev (lstrip_by p (rev (lstrip_by p s))).

Definition mem (c : N) (chars : str) : bool := existsb (N.eqb c) chars.

(** [s.strip(chars)]: drops every leading and every trailing character
    that belongs to [chars]. *)
Definition strip_chars (s chars : str) : str :=
  strip_by (fun c => mem c chars) s.

(** The code points for which [str.isspace] holds. *)
Definition isspace (c : N) : bool :=
  ((9 <=? c) && (c <=? 13) || (28 <=? c) && (c <=? 32)
   || (c =? 133) || (c =? 160) || (c =? 5760)
   || (8192 <=? c) && (c <=? 8202)
   || (c =? 8232) || (c =? 8233) || (c =? 8239) || (c =? 8287)
   || (c =? 12288))%N.

(** [s.strip()] *)
Definition strip (s : str) : str := strip_by isspace s.

(** [s.lower()] on the ASCII letters.  Python also lowers non-ASCII
    letters; the source only compares the result with the ASCII words
    "article" and "inproceedings", and no non-ASCII code point lowers to
    a letter of those words, so the comparisons are decided alike. *)
Definition lower_char (c : N) : N :=
  if ((65 <=? c) && (c <=? 90))%N then (c + 32)%N else c.

Definition lower (s : str) : str := map lower_char s.

(** [a == b] on strings *)
Definition eqb (a b : str) : bool := bool_decide (a = b).

(** [a < b] on strings: lexicographic on code points. *)
Fixpoint ltb (a b : str) : bool :=
  match a, b with
  | _, [] => false
  | [], _ :: _ => true
  | x :: a', y :: b' =>
      if (x <? y)%N then true
      else if (y <? x)%N then false
      else ltb a' b'
  end.

End Py.

(** ** Exceptions *)

Inductive exn : Type :=
| ValueError (msg : str)
| KeyError (key : str).

Inductive result (A : Type) : Type :=
| Ok (a : A)
| Raise (e : exn).
Arguments Ok {A} a.
Arguments Raise {A} e.

#[global] Instance result_ret : MRet result := fun _ a => Ok a.
#[global] Instance result_bind : MBind result := fun _ _ k r =>
  match r with
  | Ok a => k a
  | Raise e => Raise e
  end.

(** ** The marker splicer *)

Definition replace_between_markers
    (text begin_marker end_marker new_content : str) : result str :=
  let start := Py.find text begin_marker in
  let end_ := Py.find_from text end_marker start in
  if ((start =? -1) || (end_ =? -1))%Z
  then Raise (ValueError (u "Markers " ++ begin_marker ++ u " / "
                            ++ end_marker ++ u " not found"))
  else Ok (Py.slice_to text (start + Z.of_nat (length begin_marker))
             ++ nl ++ new_content ++ nl ++ Py.slice_from text end_).

(** ** Records *)

(** A bibliography record is the dictionary bibtexparser hands over:
    field name to field value. *)
Abbreviation entry := (gmap str str).

(** [entry.get(key, default)] *)
Definition get (e : entry) (key default : str) : str :=
  match e !! key with
  | Some v => v
  | None => default
  end.

(** [entry[key]] *)
Definition getitem (e : entry) (key : str) : result str :=
  match e !! key with
  | Some v => Ok v
  | None => Raise (KeyError key)
  end.

(** Truth value of a string: non-empty. *)
Definition truthy (s : str) : bool :=
  match s with
  | [] => false
  | _ :: _ => true
  end.

(** ** Accent normalization *)

(** The [replacements] dictionary, in insertion order. *)
Definition replacements : list (str * str) :=
  [ (u "{\'a}", [225%N]); (u "{\'e}", [233%N]); (u "{\'i}", [237%N]);
    (u "{\'o}", [243%N]); (u "{\'u}", [250%N]);
    (u "{\`a}", [224%N]); (u "{\`e}", [232%N]); (u "{\`i}", [236%N]);
    (u "{\`o}", [242%N]); (u "{\`u}", [249%N]);
    (u "{\^a}", [226%N]); (u "{\^e}", [234%N]); (u "{\^i}", [238%N]);
    (u "{\^o}", [244%N]); (u "{\^u}", [251%N]);
    (u "{\" ++ dquote ++ u "a}", [228%N]);
    (u "{\" ++ dquote ++ u "e}", [235%N]);
    (u "{\" ++ dquote ++ u "i}", [239%N]);
    (u "{\" ++ dquote ++ u "o}", [246%N]);
    (u "{\" ++ dquote ++ u "u}", [252%N]);
    (u "{\~n}", [241%N]); (u "{\c{c}}", [231%N]);
    (u "\\&", u "&") ].

Definition is_brace (c : N) : bool := ((c =? 123) || (c =? 125))%N.

(** [re.sub(r"[{}]", "", s)] *)
Definition remove_braces (s : str) : str :=
  filter (fun c => is_brace c = false) s.

Definition apply_replacements (table : list (str * str)) (s : str) : str :=
  fold_left (fun acc kv => Py.replace acc kv.1 kv.2) table s.

Definition latex_to_unicode (s : str) : str :=
  remove_braces (apply_replacements replacements s).

(** [shorten_url]: the address without its scheme and outer slashes. *)
Definition shorten_url (url : str) : str :=
  Py.strip_chars
    (Py.replace (Py.replace url (u "https://") []) (u "http://") [])
    (u "/").

(** ** The record formatter *)

(** [author_to_bold] is a module-level setting of the script. *)
Definition configured_author_to_bold : str := u "Boukraa".

Section Formatter.

Variable author_to_bold : str.

Definition emphasize (html : bool) (a : str) : str :=
  if Py.contains author_to_bold a
  then if html then u "<strong>" ++ a ++ u "</strong>"
       else u "\textbf{" ++ a ++ u "}"
  else a.

Definition format_authors (authors_raw : str) (html : bool) : str :=
  let authors :=
    map Py.strip (Py.split (Py.replace authors_raw nl (u " ")) (u " and ")) in
  let out := map (emphasize html) authors in
  let authors_str := Py.join (u ", ") out in
  if html then latex_to_unicode authors_str else authors_str.

(** The pair [(None, None)] returned for an unrecognized entry type is
    modelled as [None], a pair of strings as [Some]. *)
Definition format_publication (e : entry) (html : bool)
    : result (option (str * str)) :=
  etype_raw ← getitem e (u "ENTRYTYPE");
  let etype := Py.lower etype_raw in
  let authors := format_authors (get e (u "author") []) html in
  let title := Py.strip_chars (get e (u "title") []) (u "{}") in
  let year := get e (u "year") [] in
  let doi := get e (u "doi") [] in
  let hal := if truthy (get e (u "hal_id") [])
             then get e (u "hal_id") [] else get e (u "url") [] in
  let title := if html then latex_to_unicode title else title in
  if Py.eqb etype (u "article") then
    let journal := get e (u "journal") [] in
    let vol := get e (u "volume") [] in
    let num := get e (u "number") [] in
    let pages := get e (u "pages") [] in
    let details := journal in
    let details := if truthy vol then details ++ u ", " ++ vol else details in
    let details := if truthy num then details ++ u "(" ++ num ++ u ")" else details in
    let details := if truthy pages then details ++ u ", " ++ pages else details in
    let details := if truthy year then details ++ u ", " ++ year else details in
    let line :=
      if html then
        let line := authors ++ u ". " ++ title ++ u ". <em>"
                      ++ latex_to_unicode details ++ u "</em>." in
        let line := if truthy doi
                    then line ++ u " <a href=" ++ dquote ++ u "https://doi.org/"
                           ++ doi ++ dquote ++ u ">DOI</a>"
                    else line in
        let line := if truthy hal
                    then line ++ u " <a href=" ++ dquote ++ hal ++ dquote
                           ++ u ">HAL</a>"
                    else line in
        line
      else
        let line := u "\item " ++ authors ++ u ". " ++ title ++ u ". \textit{"
                      ++ details ++ u "}." in
        let line := if truthy doi
                    then line ++ u ": \href{https://doi.org/" ++ doi ++ u "}{"
                           ++ doi ++ u "}"
                    else line in
        line
    in
    mret (Some (u "journal", line))
  else if Py.eqb etype (u "inproceedings") then
    let book := get e (u "booktitle") [] in
    let addr := get e (u "address") [] in
    let details := book in
    let details := if truthy addr then details ++ u ", " ++ addr else details in
    let details := if truthy year then details ++ u ", " ++ year else details in
    let line :=
      if html then
        let line := authors ++ u ". " ++ title ++ u ". <em>"
                      ++ latex_to_unicode details ++ u "</em>." in
        let line := if truthy doi
                    then line ++ u " <a href=" ++ dquote ++ u "https://doi.org/"
                           ++ doi ++ dquote ++ u ">DOI</a>"
                    else line in
        let line := if truthy hal
                    then line ++ u " <a href=" ++ dquote ++ hal ++ dquote
                           ++ u ">HAL</a>"
                    else line in
        line
      else
        let line := u "\item " ++ authors ++ u ". " ++ title ++ u ". \textit{"
                      ++ details ++ u "}." in
        let line := if truthy doi
                    then line ++ u ": \href{https://doi.org/" ++ doi
                           ++ u "}{\nolinkurl{" ++ doi ++ u "}}"
                    else line ++ u ": \href{" ++ hal ++ u "}{\nolinkurl{"
                           ++ hal ++ u "}}" in
        line
    in
    mret (Some (u "conference", line))
  else mret None.

End Formatter.

(** The arrow emoji of the talk link: U+2197 followed by U+FE0F. *)
Definition arrow_emoji : str := [8599%N; 65039%N].

Definition format_talk (e : entry) (html : bool) : str * str :=
  let title := get e (u "title") [] in
  let address := get e (u "address") [] in
  let year := get e (u "year") [] in
  let note := get e (u "note") [] in
  let url := get e (u "url") [] in
  let details := address in
  let details :=
    if truthy note
    then details ++ (if truthy year then u ", " ++ note ++ u " " ++ year
                     else u ", " ++ note)
    else if truthy year then details ++ u ", " ++ year
    else details in
  let line :=
    if html then
      if truthy url
      then title ++ u ", " ++ details ++ u ". <a href=" ++ dquote ++ url
             ++ dquote ++ u " style=" ++ dquote ++ u "text-decoration:none"
             ++ dquote ++ u ">" ++ arrow_emoji ++ u "</a>"
      else title ++ u ", " ++ details ++ u "."
    else
      let line := u "\item " ++ title ++ u ", " ++ details ++ u "." in
      if truthy url then line ++ u " \url{" ++ url ++ u "}" else line
  in
  (get e (u "type") (u "other"), line).

(** ** The main script: sorting and bucketing *)

(** The sort key [lambda e: e.get("year", "0")]. *)
Definition year_key (e : entry) : str := get e (u "year") (u "0").

(** [entries.sort(key=..., reverse=True)]: a stable sort into descending
    key order; records with equal keys keep their original order. *)
Fixpoint insert_desc (key : entry -> str) (x : entry) (l : list entry)
    : list entry :=
  match l with
  | [] => [x]
  | y :: l' =>
      if Py.ltb (key x) (key y) then y :: insert_desc key x l' else x :: l
  end.

Definition sort_reverse (key : entry -> str) (l : list entry) : list entry :=
  foldr (insert_desc key) [] l.

Definition li (line : str) : str := u "<li>" ++ line ++ u "</li>".

Record pub_buckets : Type := PubBuckets {
  journal_tex_entries : list str;
  conf_tex_entries : list str;
  journal_html_entries : list str;
  conf_html_entries : list str
}.

Definition no_pubs : pub_buckets := PubBuckets [] [] [] [].

(** One turn of the loop over [bib.entries]. *)
Definition pub_step (author_to_bold : str) (b : pub_buckets) (e : entry)
    : result pub_buckets :=
  r ← format_publication author_to_bold e false;
  let b :=
    match r with
    | Some (cat, line) =>
        if Py.eqb cat (u "journal")
        then PubBuckets (journal_tex_entries b ++ [line]) (conf_tex_entries b)
               (journal_html_entries b) (conf_html_entries b)
        else if Py.eqb cat (u "conference")
        then PubBuckets (journal_tex_entries b) (conf_tex_entries b ++ [line])
               (journal_html_entries b) (conf_html_entries b)
        else b
    | None => b
    end in
  r ← format_publication author_to_bold e true;
  mret
    match r with
    | Some (cat, line) =>
        if Py.eqb cat (u "journal")
        then PubBuckets (journal_tex_entries b) (conf_tex_entries b)
               (journal_html_entries b ++ [li line]) (conf_html_entries b)
        else if Py.eqb cat (u "conference")
        then PubBuckets (journal_tex_entries b) (conf_tex_entries b)
               (journal_html_entries b) (conf_html_entries b ++ [li line])
        else b
    | None => b
    end.

Fixpoint pub_loop (author_to_bold : str) (b : pub_buckets) (es : list entry)
    : result pub_buckets :=
  match es with
  | [] => mret b
  | e :: es' => b' ← pub_step author_to_bold b e; pub_loop author_to_bold b' es'
  end.

(** Lines 151 to 167: sort the publications, then fill the four buckets. *)
Definition publications (author_to_bold : str) (entries : list entry)
    : result pub_buckets :=
  pub_loop author_to_bold no_pubs (sort_reverse year_key entries).

Record talk_buckets : Type := TalkBuckets {
  conf_talks_tex : list str;
  other_talks_tex : list str;
  conf_talks_html : list str;
  other_talks_html : list str
}.

Definition no_talks : talk_buckets := TalkBuckets [] [] [] [].

(** One turn of the loop over [talks.entries]. *)
Definition talk_step (b : talk_buckets) (e : entry) : talk_buckets :=
  let '(cat, line) := format_talk e false in
  let b :=
    if Py.eqb cat (u "conference")
    then TalkBuckets (conf_talks_tex b ++ [line]) (other_talks_tex b)
           (conf_talks_html b) (other_talks_html b)
    else TalkBuckets (conf_talks_tex b) (other_talks_tex b ++ [line])
           (conf_talks_html b) (other_talks_html b) in
  let '(cat, line) := format_talk e true in
  if Py.eqb cat (u "conference")
  then TalkBuckets (conf_talks_tex b) (other_talks_tex b)
         (conf_talks_html b ++ [li line]) (other_talks_html b)
  else TalkBuckets (conf_talks_tex b) (other_talks_tex b)
         (conf_talks_html b) (other_talks_html b ++ [li line]).

(** Lines 173 to 189: sort the talks, then fill the four buckets. *)
Definition talks (entries : list entry) : talk_buckets :=
  fold_left talk_step (sort_reverse year_key entries) no_talks.

(** * Specification vocabulary *)

(** ** Searching *)

(** [m] occurs in [s] at position [k]: [s[k:k+len(m)] == m]. *)
Definition occurs_at (s m : str) (k : nat) : Prop :=
  k ≤ length s ∧ take (length m) (drop k s) = m.

(** The positions at which [m] occurs in [s], in increasing order. *)
Definition occurrences (s m : str) : list nat :=
  filter (fun k => Py.starts_with m (drop k s) = true) (seq 0 (S (length s))).

(** [m] occurs at [k], and nowhere in [from, k). *)
Definition first_at (s m : str) (from k : nat) : Prop :=
  from ≤ k ∧ occurs_at s m k ∧ ∀ k', from ≤ k' → k' < k → ¬ occurs_at s m k'.

(** The exception the splicer raises. *)
Definition markers_not_found (B E : str) : exn :=
  ValueError (u "Markers " ++ B ++ u " / " ++ E ++ u " not found").

(** What the splicer does, by cases on where the markers occur: the begin
    marker is looked up from the start of the text, the end marker from the
    position at which the begin marker starts. *)
Inductive splice_outcome (text B E C : str) : result str -> Prop :=
| splice_no_begin :
    (∀ k, ¬ occurs_at text B k) ->
    splice_outcome text B E C (Raise (markers_not_found B E))
| splice_no_end i :
    first_at text B 0 i ->
    (∀ k, i ≤ k -> ¬ occurs_at text E k) ->
    splice_outcome text B E C (Raise (markers_not_found B E))
| splice_both i j :
    first_at text B 0 i ->
    first_at text E i j ->
    splice_outcome text B E C
      (Ok (take (i + length B) text ++ nl ++ C ++ nl ++ drop j text)).

(** ** Normalized text *)

(** A string is already normalized when it holds no grouping brace and
    none of the escape sequences of the table. *)
Definition already_normalized (s : str) : bool :=
  forallb (fun c => negb (is_brace c)) s
  && forallb (fun kv : str * str => negb (Py.contains kv.1 s)) replacements.

(** ** Venue strings and links, as the specification writes them *)

(** [sep + x] when the field [x] is non-empty, nothing otherwise. *)
Definition opt (sep x : str) : str :=
  match x with [] => [] | _ :: _ => sep ++ x end.

Definition field (e : entry) (name : string) : str := get e (u name) [].

(** The author list of a record. *)
Definition author_names (e : entry) : list str :=
  map Py.strip (Py.split (Py.replace (field e "author") nl (u " ")) (u " and ")).

(** [journal[, volume][(number)][, pages][, year]] *)
Definition journal_details (e : entry) : str :=
  field e "journal" ++ opt (u ", ") (field e "volume")
    ++ match field e "number" with [] => [] | n => u "(" ++ n ++ u ")" end
    ++ opt (u ", ") (field e "pages") ++ opt (u ", ") (field e "year").

(** [booktitle[, address][, year]] *)
Definition conference_details (e : entry) : str :=
  field e "booktitle" ++ opt (u ", ") (field e "address")
    ++ opt (u ", ") (field e "year").

(** The hal identifier or, failing that, the url. *)
Definition hal_of (e : entry) : str :=
  match field e "hal_id" with [] => field e "url" | h => h end.

(** The links of a web fragment: one labelled DOI when there is a doi, then
    one labelled HAL when there is a hal identifier or url. *)
Definition web_links (e : entry) : str :=
  match field e "doi" with
  | [] => []
  | doi => u " <a href=" ++ dquote ++ u "https://doi.org/" ++ doi ++ dquote
             ++ u ">DOI</a>"
  end
  ++ match hal_of e with
     | [] => []
     | hal => u " <a href=" ++ dquote ++ hal ++ dquote ++ u ">HAL</a>"
     end.

(** The link of a structured journal fragment: the doi, shown as it is,
    when there is one; the hal identifier and the url are not used. *)
Definition journal_link (e : entry) : str :=
  match field e "doi" with
  | [] => []
  | doi => u ": \href{https://doi.org/" ++ doi ++ u "}{" ++ doi ++ u "}"
  end.

(** The link of a structured conference fragment, always there: to the doi
    when there is one, else to the hal identifier or url, possibly empty. *)
Definition conference_link (e : entry) : str :=
  u ": \href{"
  ++ match field e "doi" with
     | [] => hal_of e
     | doi => u "https://doi.org/" ++ doi
     end
  ++ u "}{\nolinkurl{"
  ++ match field e "doi" with [] => hal_of e | doi => doi end
  ++ u "}}".

(** The record's kind is the one written [kind] in lower case. *)
Definition has_kind (e : entry) (kind : string) : Prop :=
  ∃ t, e !! u "ENTRYTYPE" = Some t ∧ Py.lower t = u kind.

(** ** Stripping web markup *)

(** Dropping every tag, from "<" to the next ">", keeps the visible text of
    a web fragment. *)
Fixpoint strip_tags (in_tag : bool) (s : str) : str :=
  match s with
  | [] => []
  | c :: s' =>
      if in_tag then strip_tags (negb (c =? 62)%N) s'
      else if (c =? 60)%N then strip_tags true s'
      else c :: strip_tags false s'
  end.

Definition strip_web (s : str) : str := strip_tags false s.

(** ** Buckets *)

(** [x] comes before [y] in [l]. *)
Definition precedes (x y : str) (l : list str) : Prop :=
  ∃ l1 l2 l3, l = l1 ++ x :: l2 ++ y :: l3.

(** A fragment as it is stored in a bucket. *)
Definition shown (html : bool) (line : str) : str :=
  if html then li line else line.

(** The bucket of a dialect and category. *)
Definition pub_bucket (b : pub_buckets) (html : bool) (cat : str) : list str :=
  if Py.eqb cat (u "journal")
  then if html then journal_html_entries b else journal_tex_entries b
  else if Py.eqb cat (u "conference")
  then if html then conf_html_entries b else conf_tex_entries b
  else [].

Definition talk_bucket (b : talk_buckets) (html : bool) (cat : str) : list str :=
  if Py.eqb cat (u "conference")
  then if html then conf_talks_html b else conf_talks_tex b
  else if html then other_talks_html b else other_talks_tex b.

(** What one record contributes to a bucket: its fragment, or nothing. *)
Definition pub_line (hl : str) (html : bool) (cat : str) (e : entry)
    : list str :=
  match format_publication hl e html with
  | Ok (Some (c, line)) => if Py.eqb c cat then [shown html line] else []
  | _ => []
  end.

(** The lines the records [es] contribute to a bucket, in order. *)
Definition pub_lines (hl : str) (html : bool) (cat : str) (es : list entry)
    : list str :=
  flat_map (pub_line hl html cat) es.

Definition talk_line (html conference : bool) (e : entry) : list str :=
  let '(c, line) := format_talk e html in
  if Bool.eqb (Py.eqb c (u "conference")) conference
  then [shown html line] else [].

Definition talk_lines (html conference : bool) (es : list entry) : list str :=
  flat_map (talk_line html conference) es.

(** [x] may stand before [y] in descending key order. *)
Definition not_below (key : entry -> str) (x y : entry) : Prop :=
  Py.ltb (key x) (key y) = false.

(** ** Years as numbers *)

Definition is_digit (c : N) : bool := ((48 <=? c) && (c <=? 57))%N.

(** The number a string of decimal digits denotes. *)
Fixpoint decimal (s : str) : N :=
  match s with
  | [] => 0%N
  | c :: s' => ((c - 48) * 10 ^ N.of_nat (length s') + decimal s')%N
  end.

(** ** Sample records *)

Definition study : entry :=
  <[u "ENTRYTYPE" := u "article"]> (<[u "author" := u "A. One and B. Two"]>
  (<[u "title" := u "{Study}"]> (<[u "journal" := u "J"]>
  (<[u "year" := u "2020"]> (<[u "doi" := u "10.1/x"]> ∅))))).


Definition bare_conference : entry :=
  <[u "ENTRYTYPE" := u "InProceedings"]> (<[u "author" := u "A. One"]>
  (<[u "title" := u "Study"]> (<[u "booktitle" := u "Proc"]> ∅))).

Definition hal_only : entry :=
  <[u "ENTRYTYPE" := u "article"]> (<[u "author" := u "A. One"]>
  (<[u "title" := u "Study"]> (<[u "journal" := u "J"]>
  (<[u "year" := u "2020"]> (<[u "hal_id" := u "hal-01"]> ∅))))).

Definition double_braced : entry := <[u "title" := u "{{Study}}"]> study.

Definition dated : entry :=
  <[u "ENTRYTYPE" := u "article"]> (<[u "title" := u "Dated"]>
  (<[u "year" := u "2020"]> ∅)).

Definition undated : entry :=
  <[u "ENTRYTYPE" := u "article"]> (<[u "title" := u "Undated"]>
  (<[u "year" := u "n.d."]> ∅)).

(** * The rest of the script *)

(** ** Updating the documents *)

(** Lines 194 to 210: the four regions of a CV source, spliced in turn;
    the text is written back only when all four splices succeed. *)
Definition update_cv (cv : str) (p : pub_buckets) (t : talk_buckets)
    : result str :=
  cv ← replace_between_markers cv (u "% BEGIN JOURNALS") (u "% END JOURNALS")
         (u "\begin{enumerate}" ++ nl ++ Py.join nl (journal_tex_entries p)
            ++ nl ++ u "\end{enumerate}");
  cv ← replace_between_markers cv (u "% BEGIN CONFS") (u "% END CONFS")
         (u "\begin{enumerate}" ++ nl ++ Py.join nl (conf_tex_entries p)
            ++ nl ++ u "\end{enumerate}");
  cv ← replace_between_markers cv (u "% BEGIN CONF TALKS") (u "% END CONF TALKS")
         (u "\begin{itemize}" ++ nl ++ Py.join nl (conf_talks_tex t)
            ++ nl ++ u "\end{itemize}");
  cv ← replace_between_markers cv (u "% BEGIN OTHER TALKS") (u "% END OTHER TALKS")
         (u "\begin{itemize}" ++ nl ++ Py.join nl (other_talks_tex t)
            ++ nl ++ u "\end{itemize}");
  mret cv.

(** Lines 215 to 231: the four regions of the web page. *)
Definition update_html (html : str) (p : pub_buckets) (t : talk_buckets)
    : result str :=
  html ← replace_between_markers html
           (u "<!-- BEGIN JOURNALS -->") (u "<!-- END JOURNALS -->")
           (Py.join nl (journal_html_entries p));
  html ← replace_between_markers html
           (u "<!-- BEGIN CONFS -->") (u "<!-- END CONFS -->")
           (Py.join nl (conf_html_entries p));
  html ← replace_between_markers html
           (u "<!-- BEGIN CONF TALKS -->") (u "<!-- END CONF TALKS -->")
           (Py.join nl (conf_talks_html t));
  html ← replace_between_markers html
           (u "<!-- BEGIN OTHER TALKS -->") (u "<!-- END OTHER TALKS -->")
           (Py.join nl (other_talks_html t));
  mret html.

(** ** Vocabulary for the further properties *)

(** The record's kind, decided. *)
Definition kind_is (e : entry) (kind : string) : bool :=
  match e !! u "ENTRYTYPE" with
  | Some t => Py.eqb (Py.lower t) (u kind)
  | None => false
  end.

(** A marker-delimited region of a document: its markers, the text now
    between them, the text to put there, and the text that follows the end
    marker up to the next region. *)
Record region : Type := Region {
  r_begin : str;
  r_end : str;
  r_old : str;
  r_new : str;
  r_after : str
}.

(** A run of regions before and after the update. *)
Fixpoint render_old (rs : list region) : str :=
  match rs with
  | [] => []
  | r :: rs' => r_begin r ++ r_old r ++ r_end r ++ r_after r ++ render_old rs'
  end.

Fixpoint render_new (rs : list region) : str :=
  match rs with
  | [] => []
  | r :: rs' =>
      r_begin r ++ nl ++ r_new r ++ nl ++ r_end r ++ r_after r
        ++ render_new rs'
  end.

(** Splicing the regions one after the other, as the script does. *)
Fixpoint splice_all (text : str) (rs : list region) : result str :=
  match rs with
  | [] => mret text
  | r :: rs' =>
      text' ← replace_between_markers text (r_begin r) (r_end r) (r_new r);
      splice_all text' rs'
  end.

(** At each stage the search of the splicer lands on the region's own
    markers: the first begin marker of the text as it then is stands at the
    region's start, and the first end marker from there on stands at the
    region's end. *)
Fixpoint regions_located (pre : str) (rs : list region) : Prop :=
  match rs with
  | [] => True
  | r :: rs' =>
      let text := pre ++ render_old rs in
      Py.find text (r_begin r) = Z.of_nat (length pre)
      ∧ Py.find_from text (r_end r) (Z.of_nat (length pre))
        = Z.of_nat (length pre + length (r_begin r) + length (r_old r))
      ∧ regions_located
          (pre ++ r_begin r ++ nl ++ r_new r ++ nl ++ r_end r ++ r_after r) rs'
  end.

(** A text without braces. *)
Definition no_brace (s : str) : bool := forallb (fun c => negb (is_brace c)) s.

Definition upper_article : entry :=
  <[u "ENTRYTYPE" := u "ARTICLE"]> study.

Definition no_type : entry := <[u "title" := u "Untyped"]> ∅.

Definition thesis : entry :=
  <[u "ENTRYTYPE" := u "phdthesis"]> (<[u "title" := u "Thesis"]> ∅).

(** The venue of a talk: [address[, note[ year]]] or [address[, year]]. *)
Definition talk_details (e : entry) : str :=
  field e "address"
    ++ match field e "note", field e "year" with
       | [], [] => []
       | [], y => u ", " ++ y
       | n, [] => u ", " ++ n
       | n, y => u ", " ++ n ++ u " " ++ y
       end.

(** The talk is filed under "conference". *)
Definition is_conference_talk (e : entry) : bool :=
  Py.eqb (get e (u "type") (u "other")) (u "conference").

Definition keynote : entry :=
  <[u "title" := u "Talk A"]> (<[u "address" := u "Paris"]>
  (<[u "note" := u "keynote"]> (<[u "year" := u "2022"]>
  (<[u "type" := u "conference"]> ∅)))).

Definition seminar : entry :=
  <[u "title" := u "Talk B"]> (<[u "address" := u "Lyon"]>
  (<[u "year" := u "2021"]> (<[u "url" := u "https://x.org/b"]> ∅))).

(** The four regions of the web page, with the text now between the
    markers and the text after each end marker. *)
Definition html_regions (p : pub_buckets) (t : talk_buckets)
    (o1 a1 o2 a2 o3 a3 o4 a4 : str) : list region :=
  [ Region (u "<!-- BEGIN JOURNALS -->") (u "<!-- END JOURNALS -->")
      o1 (Py.join nl (journal_html_entries p)) a1;
    Region (u "<!-- BEGIN CONFS -->") (u "<!-- END CONFS -->")
      o2 (Py.join nl (conf_html_entries p)) a2;
    Region (u "<!-- BEGIN CONF TALKS -->") (u "<!-- END CONF TALKS -->")
      o3 (Py.join nl (conf_talks_html t)) a3;
    Region (u "<!-- BEGIN OTHER TALKS -->") (u "<!-- END OTHER TALKS -->")
      o4 (Py.join nl (other_talks_html t)) a4 ].

(** The four regions of a CV source. *)
Definition cv_regions (p : pub_buckets) (t : talk_buckets)
    (o1 a1 o2 a2 o3 a3 o4 a4 : str) : list region :=
  [ Region (u "% BEGIN JOURNALS") (u "% END JOURNALS") o1
      (u "\begin{enumerate}" ++ nl ++ Py.join nl (journal_tex_entries p)
         ++ nl ++ u "\end{enumerate}") a1;
    Region (u "% BEGIN CONFS") (u "% END CONFS") o2
      (u "\begin{enumerate}" ++ nl ++ Py.join nl (conf_tex_entries p)
         ++ nl ++ u "\end{enumerate}") a2;
    Region (u "% BEGIN CONF TALKS") (u "% END CONF TALKS") o3
      (u "\begin{itemize}" ++ nl ++ Py.join nl (conf_talks_tex t)
         ++ nl ++ u "\end{itemize}") a3;
    Region (u "% BEGIN OTHER TALKS") (u "% END OTHER TALKS") o4
      (u "\begin{itemize}" ++ nl ++ Py.join nl (other_talks_tex t)
         ++ nl ++ u "\end{itemize}") a4 ].

Definition sample_pubs : pub_buckets :=
  PubBuckets [u "\item A. One. Study."] [u "\item B. Two. Paper."]
             [li (u "A. One. Study.")] [li (u "B. Two. Paper.")].

Definition sample_talks : talk_buckets :=
  TalkBuckets [u "\item Talk A, Paris."] []
              [li (u "Talk A, Paris.")] [].

(** The record has a year field made of [n] decimal digits. *)
Definition digit_year (n : nat) (e : entry) : Prop :=
  ∃ y, e !! u "year" = Some y ∧ length y = n ∧ forallb is_digit y = true.

Definition of_2019 : entry :=
  <[u "ENTRYTYPE" := u "article"]> (<[u "title" := u "Earlier"]>
  (<[u "year" := u "2019"]> ∅)).

Definition also_2020 : entry :=
  <[u "ENTRYTYPE" := u "article"]> (<[u "title" := u "Second of 2020"]>
  (<[u "year" := u "2020"]> ∅)).
(** * Properties *)

(** ** Searching *)

Lemma starts_with_take m s :
  Py.starts_with m s = true ↔ take (length m) s = m.
Proof.
  revert s. induction m as [|a m IH]; intros [|b s]; simpl; try done.
  destruct (N.eqb_spec a b) as [->|Hne].
  - rewrite IH. split; [by intros -> | by intros [= ->]].
  - split; [done | intros [= H _]; congruence].
Qed.

Lemma starts_with_app m t : Py.starts_with m (m ++ t) = true.
Proof. apply starts_with_take. by rewrite take_app_length. Qed.

Lemma starts_with_inv m s :
  Py.starts_with m s = true → s = m ++ drop (length m) s.
Proof.
  intros H%starts_with_take.
  rewrite <- H at 1. by rewrite take_drop.
Qed.

(** Only the first [len(m)] characters of [s] matter. *)
Lemma starts_with_app_long m s t :
  length m ≤ length s → Py.starts_with m (s ++ t) = Py.starts_with m s.
Proof.
  intros Hlen.
  destruct (Py.starts_with m s) eqn:E.
  - apply starts_with_take. apply starts_with_take in E.
    by rewrite take_app_le.
  - destruct (Py.starts_with m (s ++ t)) eqn:E'; [|done].
    apply starts_with_take in E'. rewrite take_app_le in E' by done.
    apply starts_with_take in E'. congruence.
Qed.

Lemma starts_with_nil_r m : Py.starts_with m [] = true → m = [].
Proof. by destruct m. Qed.

Lemma occurs_at_starts_with s m k :
  occurs_at s m k ↔ k ≤ length s ∧ Py.starts_with m (drop k s) = true.
Proof. unfold occurs_at. by rewrite starts_with_take. Qed.

Lemma elem_of_occurrences s m k : k ∈ occurrences s m ↔ occurs_at s m k.
Proof.
  unfold occurrences. rewrite list_elem_of_filter, elem_of_seq.
  rewrite occurs_at_starts_with. intuition lia.
Qed.

Lemma find_nat_Some s m k :
  Py.find_nat s m = Some k ↔
  occurs_at s m k ∧ ∀ k', k' < k → ¬ occurs_at s m k'.
Proof.
  setoid_rewrite occurs_at_starts_with.
  revert k. induction s as [|c s IH]; intros k; simpl.
  - destruct (Py.starts_with m []) eqn:E.
    + split.
      * intros [= <-]. split; [by rewrite drop_nil | lia].
      * intros [[Hk _] _]. f_equal. simpl in Hk. lia.
    + split; [done|]. intros [[_ H] _]. rewrite drop_nil in H. congruence.
  - destruct (Py.starts_with m (c :: s)) eqn:E.
    + split.
      * intros [= <-]. split; [split; [lia | done] | lia].
      * intros [_ Hmin]. destruct k as [|k]; [done|].
        exfalso. apply (Hmin 0); [lia|]. split; [simpl; lia | done].
    + destruct k as [|k].
      * split.
        -- destruct (Py.find_nat s m); done.
        -- intros [[_ H] _]. simpl in H. congruence.
      * rewrite fmap_Some. split.
        -- intros (k0 & Hk0 & [= ->]). apply IH in Hk0 as [[Hle Hs] Hmin].
           split; [split; [simpl; lia | done]|].
           intros [|k'] Hlt [Hle' Hs'].
           ++ simpl in Hs'. congruence.
           ++ apply (Hmin k'); [lia|]. split; [simpl in Hle'; lia | done].
        -- intros [[Hle Hs] Hmin]. exists k. split; [|done].
           apply IH. split; [split; [simpl in Hle; lia | done]|].
           intros k' Hlt [Hle' Hs']. apply (Hmin (S k')); [lia|].
           split; [simpl; lia | done].
Qed.

Lemma find_nat_is_Some s m k :
  occurs_at s m k → is_Some (Py.find_nat s m).
Proof.
  rewrite occurs_at_starts_with.
  revert k. induction s as [|c s IH]; intros k [Hle Hs]; simpl.
  - rewrite drop_nil in Hs. by rewrite Hs.
  - destruct (Py.starts_with m (c :: s)) eqn:E; [done|].
    destruct k as [|k]; [simpl in Hs; congruence|].
    apply fmap_is_Some, (IH k). split; [simpl in Hle; lia | done].
Qed.

Lemma find_nat_None s m :
  Py.find_nat s m = None ↔ ∀ k, ¬ occurs_at s m k.
Proof.
  split.
  - intros Hnone k [x Hx]%find_nat_is_Some. congruence.
  - intros Hno. destruct (Py.find_nat s m) as [k|] eqn:E; [|done].
    apply find_nat_Some in E as [E _]. by apply Hno in E.
Qed.

Lemma occurs_at_drop s m i k :
  i ≤ length s → occurs_at (drop i s) m k ↔ occurs_at s m (i + k).
Proof.
  intros Hi. unfold occurs_at. rewrite length_drop, drop_drop.
  intuition lia.
Qed.

Lemma find_nat_drop_Some s m i d :
  i ≤ length s →
  Py.find_nat (drop i s) m = Some d ↔ first_at s m i (i + d).
Proof.
  intros Hi. rewrite find_nat_Some, occurs_at_drop by done.
  unfold first_at. split.
  - intros [Hocc Hmin]. split; [lia|]. split; [done|].
    intros k' Hge Hlt Hk'. apply (Hmin (k' - i)); [lia|].
    apply occurs_at_drop; [done|]. by replace (i + (k' - i)) with k' by lia.
  - intros (_ & Hocc & Hmin). split; [done|].
    intros k' Hlt Hk'%occurs_at_drop; [|done]. apply (Hmin (i + k')); [lia|lia|done].
Qed.

Lemma find_nat_drop_None s m i :
  i ≤ length s →
  Py.find_nat (drop i s) m = None ↔ ∀ k, i ≤ k → ¬ occurs_at s m k.
Proof.
  intros Hi. rewrite find_nat_None. split.
  - intros H k Hk Hocc. apply (H (k - i)). apply occurs_at_drop; [done|].
    by replace (i + (k - i)) with k by lia.
  - intros H k Hocc%occurs_at_drop; [|done]. apply (H (i + k)); [lia|done].
Qed.

Lemma find_nat_le s m k : Py.find_nat s m = Some k → k ≤ length s.
Proof. intros [[H _] _]%find_nat_Some. done. Qed.

Lemma find_from_nat s m (i : nat) :
  i ≤ length s →
  Py.find_from s m (Z.of_nat i) =
  match Py.find_nat (drop i s) m with
  | Some k => Z.of_nat (i + k)
  | None => (-1)%Z
  end.
Proof.
  intros Hi. unfold Py.find_from, Py.adjust_index.
  destruct (Z.ltb_spec (Z.of_nat i) 0); [lia|].
  destruct (Z.ltb_spec (Z.of_nat (length s)) (Z.of_nat i)); [lia|].
  rewrite Nat2Z.id. destruct (Py.find_nat (drop i s) m); [f_equal; lia | done].
Qed.

Lemma find_nat_find s m :
  Py.find s m =
  match Py.find_nat s m with
  | Some k => Z.of_nat k
  | None => (-1)%Z
  end.
Proof.
  unfold Py.find. change 0%Z with (Z.of_nat 0).
  rewrite find_from_nat by lia. by rewrite drop_0.
Qed.

Lemma slice_to_nat s (k : nat) : Py.slice_to s (Z.of_nat k) = take k s.
Proof.
  unfold Py.slice_to, Py.adjust_index.
  destruct (Z.ltb_spec (Z.of_nat k) 0); [lia|]. by rewrite Nat2Z.id.
Qed.

Lemma slice_from_nat s (k : nat) : Py.slice_from s (Z.of_nat k) = drop k s.
Proof.
  unfold Py.slice_from, Py.adjust_index.
  destruct (Z.ltb_spec (Z.of_nat k) 0); [lia|]. by rewrite Nat2Z.id.
Qed.

(** ** The splicer, case by case *)

Lemma splice_begin_absent text B E C :
  Py.find_nat text B = None →
  replace_between_markers text B E C = Raise (markers_not_found B E).
Proof.
  intros HB. unfold replace_between_markers.
  rewrite find_nat_find, HB. done.
Qed.

Lemma splice_end_absent text B E C i :
  Py.find_nat text B = Some i →
  Py.find_nat (drop i text) E = None →
  replace_between_markers text B E C = Raise (markers_not_found B E).
Proof.
  intros HB HE. unfold replace_between_markers.
  rewrite find_nat_find, HB.
  rewrite find_from_nat by eauto using find_nat_le. rewrite HE.
  by rewrite orb_true_r.
Qed.

Lemma splice_found text B E C i d :
  Py.find_nat text B = Some i →
  Py.find_nat (drop i text) E = Some d →
  replace_between_markers text B E C =
  Ok (take (i + length B) text ++ nl ++ C ++ nl ++ drop (i + d) text).
Proof.
  intros HB HE. unfold replace_between_markers.
  rewrite find_nat_find, HB.
  rewrite find_from_nat by eauto using find_nat_le. rewrite HE.
  destruct (Z.eqb_spec (Z.of_nat i) (-1)); [lia|].
  destruct (Z.eqb_spec (Z.of_nat (i + d)) (-1)); [lia|]. simpl.
  rewrite <- Nat2Z.inj_add. by rewrite slice_to_nat, slice_from_nat.
Qed.


Lemma unique_occurrence s m i :
  occurrences s m = [i] → ∀ k, occurs_at s m k ↔ k = i.
Proof.
  intros H k. rewrite <- elem_of_occurrences, H. apply list_elem_of_singleton.
Qed.

Lemma no_occurrence s m :
  occurrences s m = [] → ∀ k, ¬ occurs_at s m k.
Proof.
  intros H k. rewrite <- elem_of_occurrences, H. apply not_elem_of_nil.
Qed.

Lemma find_nat_first_at s m k :
  Py.find_nat s m = Some k ↔ first_at s m 0 k.
Proof.
  rewrite <- (drop_0 s) at 1.
  rewrite (find_nat_drop_Some s m 0 k) by lia. done.
Qed.

(** An occurrence is decided by the characters it covers. *)
Lemma occurs_at_app_indep p x y m k :
  k + length m ≤ length p →
  occurs_at (p ++ x) m k → occurs_at (p ++ y) m k.
Proof.
  intros Hk [_ H]. split; [rewrite length_app; lia|].
  rewrite drop_app_le in * by lia.
  rewrite take_app_le in * by (rewrite length_drop; lia). done.
Qed.

Lemma occurs_at_app_here p m x : occurs_at (p ++ m ++ x) m (length p).
Proof.
  split; [rewrite length_app; lia|].
  by rewrite drop_app_length, take_app_length.
Qed.

Lemma first_at_app_indep p m x y from :
  first_at (p ++ m ++ x) m from (length p) →
  first_at (p ++ m ++ y) m from (length p).
Proof.
  intros (Hfrom & _ & Hmin). split; [done|]. split; [apply occurs_at_app_here|].
  intros k' Hge Hlt Hocc. apply (Hmin k' Hge Hlt).
  rewrite app_assoc in *.
  eapply occurs_at_app_indep; [|done]. rewrite length_app. lia.
Qed.

Lemma occurs_at_split s m k :
  occurs_at s m k → s = take k s ++ m ++ drop (k + length m) s.
Proof.
  intros [Hk H].
  rewrite <- (take_drop k s) at 1. f_equal.
  rewrite <- (take_drop (length m) (drop k s)) at 1.
  by rewrite H, drop_drop.
Qed.

(** The general form of a successful splice and of splicing its result
    again. *)
Lemma splice_twice text B E C i j :
  first_at text B 0 i →
  first_at text E i j →
  first_at (B ++ nl ++ C ++ nl ++ E) E 0 (length B + length C + 2) →
  let r := take (i + length B) text ++ nl ++ C ++ nl ++ drop j text in
  replace_between_markers text B E C = Ok r ∧
  replace_between_markers r B E C = Ok r ∧
  occurs_at r B i ∧ occurs_at r E (i + length B + length C + 2).
Proof.
  intros HB HE HBCE r.
  assert (Hi : i ≤ length text) by (destruct HB as (_ & [? _] & _); done).
  assert (Hfirst : replace_between_markers text B E C = Ok r).
  { pose proof HE as (Hij & _). unfold r.
    assert (Hj : j = i + (j - i)) by lia. rewrite Hj.
    apply splice_found; [by apply find_nat_first_at|].
    apply find_nat_drop_Some; [done|]. by rewrite <- Hj. }
  split; [done|].
  pose proof HB as (_ & HBocc & _). pose proof HE as (_ & HEocc & _).
  set (pre := take i text).
  assert (Hpre : length pre = i) by (unfold pre; rewrite length_take; lia).
  set (post := drop (j + length E) text).
  assert (Hr : r = pre ++ B ++ (nl ++ C ++ nl) ++ E ++ post).
  { unfold r. rewrite <- take_take_drop. destruct HBocc as [_ ->].
    rewrite <- (take_drop (length E) (drop j text)).
    destruct HEocc as [_ ->]. rewrite drop_drop.
    by rewrite <- !app_assoc. }
  assert (HrB : first_at r B 0 i).
  { rewrite Hr, <- Hpre. apply first_at_app_indep with (drop (i + length B) text).
    rewrite Hpre. unfold pre. by rewrite <- occurs_at_split. }
  set (d := length B + length C + 2).
  assert (HrE : first_at r E i (i + d)).
  { apply find_nat_drop_Some.
    { rewrite Hr, length_app. lia. }
    rewrite Hr, drop_app_length' by done.
    apply find_nat_first_at.
    replace (B ++ (nl ++ C ++ nl) ++ E ++ post)
      with ((B ++ nl ++ C ++ nl) ++ E ++ post) by (by rewrite <- !app_assoc).
    replace d with (length (B ++ nl ++ C ++ nl))
      by (unfold d; rewrite !length_app; simpl; lia).
    apply first_at_app_indep with [].
    rewrite app_nil_r, <- !app_assoc.
    replace (length (B ++ nl ++ C ++ nl)) with (length B + length C + 2)
      by (rewrite !length_app; simpl; lia).
    done. }
  split; [|split; [by destruct HrB as (_ & ? & _)|]].
  - rewrite (splice_found r B E C i d);
      [| by apply find_nat_first_at | by apply find_nat_drop_Some;
           [rewrite Hr, length_app; lia|] ].
    f_equal.
    assert (Ht : take (i + length B) r = pre ++ B).
    { rewrite Hr, app_assoc. apply take_app_length'. rewrite length_app. lia. }
    assert (Hd : drop (i + d) r = E ++ post).
    { rewrite Hr.
      replace (pre ++ B ++ (nl ++ C ++ nl) ++ E ++ post)
        with ((pre ++ B ++ nl ++ C ++ nl) ++ E ++ post)
        by (by rewrite <- !app_assoc).
      apply drop_app_length'. unfold d. rewrite !length_app. simpl. lia. }
    rewrite Ht, Hd, Hr. by rewrite <- !app_assoc.
  - destruct HrE as (_ & H & _). by replace (i + length B + length C + 2)
      with (i + d) by (unfold d; lia).
Qed.

Lemma first_at_unique s m i from :
  occurrences s m = [i] → from ≤ i → first_at s m from i.
Proof.
  intros H Hle. split; [done|]. split; [by apply (unique_occurrence s m i H)|].
  intros k' _ Hlt Hocc. apply (unique_occurrence s m i H) in Hocc. lia.
Qed.

(** ** The splicer: the claims *)

(** C1. When the begin marker occurs exactly once, at [i], the end marker
    exactly once, at [j], and [i < j], the splice is the text up to and
    including the begin marker, a newline, the new content, a newline, and
    the text from the end marker on:
    [text[:i+len(B)] + newline + C + newline + text[j:]]. *)
Theorem splice_unique_markers text B E C i j :
  occurrences text B = [i] →
  occurrences text E = [j] →
  i < j →
  replace_between_markers text B E C =
  Ok (take (i + length B) text ++ nl ++ C ++ nl ++ drop j text).
Proof.
  intros HB HE Hij.
  pose proof (first_at_unique text B i 0 HB) as HB'.
  pose proof (first_at_unique text E j i HE) as (_ & HEocc & HEmin); [lia|].
  replace j with (i + (j - i)) in * by lia.
  apply splice_found.
  - apply find_nat_first_at, HB'. lia.
  - apply find_nat_drop_Some; [|by split; [lia|]].
    destruct HB' as (_ & [? _] & _); [lia|done].
Qed.

Lemma splice_unique_markers_witness :
  occurrences (u "X <!--B--> old <!--E--> Y") (u "<!--B-->") = [2] ∧
  occurrences (u "X <!--B--> old <!--E--> Y") (u "<!--E-->") = [15] ∧
  replace_between_markers (u "X <!--B--> old <!--E--> Y")
    (u "<!--B-->") (u "<!--E-->") (u "new")
  = Ok (take (2 + length (u "<!--B-->")) (u "X <!--B--> old <!--E--> Y")
          ++ nl ++ u "new" ++ nl ++ drop 15 (u "X <!--B--> old <!--E--> Y")).
Proof.
  split; [vm_compute; reflexivity|]. split; [vm_compute; reflexivity|].
  apply (splice_unique_markers _ _ _ _ 2 15);
    [vm_compute; reflexivity | vm_compute; reflexivity | lia].
Defined.

Lemma splice_classified text B E C :
  splice_outcome text B E C (replace_between_markers text B E C).
Proof.
  destruct (Py.find_nat text B) as [i|] eqn:HB.
  - assert (Hi : i ≤ length text) by eauto using find_nat_le.
    destruct (Py.find_nat (drop i text) E) as [d|] eqn:HE.
    + rewrite (splice_found text B E C i d) by done.
      apply splice_both.
      * by apply find_nat_first_at.
      * by apply find_nat_drop_Some.
    + rewrite (splice_end_absent text B E C i) by done.
      apply (splice_no_end _ _ _ _ i).
      * by apply find_nat_first_at.
      * by apply find_nat_drop_None.
  - rewrite splice_begin_absent by done.
    apply splice_no_begin. by apply find_nat_None.
Qed.

(** C2, as stated, fails twice over.  With the same token as begin and end
    marker the end marker is absent from the end of the begin marker on, yet
    the splice succeeds: the search for the end marker starts where the begin
    marker starts.  And a text lacking only the begin marker and a text
    lacking only the end marker raise the very same exception, which
    therefore does not tell which marker is missing. *)
Lemma splice_search_counterexample :
  ¬ (∀ text B E C i,
       first_at text B 0 i →
       (∀ k, i + length B ≤ k → ¬ occurs_at text E k) →
       ∃ e, replace_between_markers text B E C = Raise e)
  ∧ replace_between_markers (u "x <!--E-->") (u "<!--B-->") (u "<!--E-->") (u "new")
    = replace_between_markers (u "<!--B--> x") (u "<!--B-->") (u "<!--E-->") (u "new").
Proof.
  split; [|vm_compute; reflexivity].
  intros H.
  destruct (H (u "X <!--M--> Y") (u "<!--M-->") (u "<!--M-->") (u "new") 2)
    as [e He].
  - apply first_at_unique; [vm_compute; reflexivity | lia].
  - intros k Hk Hocc.
    apply (unique_occurrence _ _ 2) in Hocc; [|vm_compute; reflexivity].
    subst k. vm_compute in Hk. lia.
  - vm_compute in He. discriminate.
Qed.

(** C2, amended.  The splicer looks up the first occurrence of the begin
    marker, then the first occurrence of the end marker at or after the
    position where that begin marker starts.  It raises the ValueError
    naming both markers when the begin marker is absent, and when the end
    marker is absent from that position on, whatever occurs earlier;
    otherwise it returns the spliced text.  Every call falls under one of
    the three cases. *)
Theorem splice_outcome_total text B E C :
  splice_outcome text B E C (replace_between_markers text B E C)
  ∧ ((∀ k, ¬ occurs_at text B k) →
     replace_between_markers text B E C = Raise (markers_not_found B E))
  ∧ (∀ i, first_at text B 0 i →
          (∀ k, i ≤ k → ¬ occurs_at text E k) →
          replace_between_markers text B E C = Raise (markers_not_found B E))
  ∧ (∀ i j, first_at text B 0 i → first_at text E i j →
            replace_between_markers text B E C =
            Ok (take (i + length B) text ++ nl ++ C ++ nl ++ drop j text)).
Proof.
  split; [apply splice_classified|]. split; [|split].
  - intros HB. apply splice_begin_absent. by apply find_nat_None.
  - intros i HB HE.
    assert (Hi : i ≤ length text) by (destruct HB as (_ & [? _] & _); done).
    apply (splice_end_absent text B E C i).
    + by apply find_nat_first_at.
    + by apply find_nat_drop_None.
  - intros i j HB HE.
    assert (Hi : i ≤ length text) by (destruct HB as (_ & [? _] & _); done).
    pose proof HE as (Hij & _).
    assert (Hj : j = i + (j - i)) by lia. rewrite Hj.
    apply splice_found; [by apply find_nat_first_at|].
    apply find_nat_drop_Some; [done|]. by rewrite <- Hj.
Qed.

(** The end marker is there, but only before the begin marker: the splice
    fails. *)
Lemma splice_outcome_total_witness :
  replace_between_markers (u "a <!--E--> <!--B--> z")
    (u "<!--B-->") (u "<!--E-->") (u "new")
  = Raise (markers_not_found (u "<!--B-->") (u "<!--E-->")).
Proof.
  refine (proj1 (proj2 (proj2 (splice_outcome_total _ _ _ _))) 11 _ _).
  - apply first_at_unique; [vm_compute; reflexivity | lia].
  - intros k Hk Hocc.
    apply (unique_occurrence _ _ 2) in Hocc; [|vm_compute; reflexivity]. lia.
Defined.

(** C6, as stated, fails: the result has no space before the end marker. *)
Lemma splice_example_counterexample :
  replace_between_markers (u "X <!--B--> old <!--E--> Y")
    (u "<!--B-->") (u "<!--E-->") (u "new")
  ≠ Ok (u "X <!--B-->" ++ nl ++ u "new" ++ nl ++ u " <!--E--> Y").
Proof. vm_compute. discriminate. Qed.

(** C6, amended.  Splicing "X <!--B--> old <!--E--> Y" with content "new"
    gives "X <!--B-->", a newline, "new", a newline, and "<!--E--> Y": the
    space before the end marker belongs to the replaced span. *)
Theorem splice_example :
  replace_between_markers (u "X <!--B--> old <!--E--> Y")
    (u "<!--B-->") (u "<!--E-->") (u "new")
  = Ok (u "X <!--B-->" ++ nl ++ u "new" ++ nl ++ u "<!--E--> Y").
Proof. vm_compute. reflexivity. Qed.

(** C7, as stated, fails: although the content contains neither marker, an
    end marker that begins with the last character of the begin marker
    followed by a newline reappears across the seam of the first splice, and
    the second splice cuts there. *)
Lemma resplice_counterexample :
  ¬ (∀ text B E C i j,
       occurrences text B = [i] →
       occurrences text E = [j] →
       i < j → i + length B ≤ j →
       occurrences C B = [] →
       occurrences C E = [] →
       ∃ r, replace_between_markers text B E C = Ok r
            ∧ replace_between_markers r B E C = Ok r).
Proof.
  intros H.
  destruct (H (u "ab__b" ++ nl ++ u "x") (u "ab") (u "b" ++ nl ++ u "x")
              (u "x") 0 4) as (r & H1 & H2);
    try (vm_compute; reflexivity); try (vm_compute; lia).
  vm_compute in H1. injection H1 as <-.
  vm_compute in H2. discriminate.
Qed.

(** C7, amended.  When moreover the end marker occurs in
    [B + newline + C + newline + E] only as its final part, splicing the
    result again with the same markers and content succeeds and returns the
    same text, in which both markers are still present. *)
Theorem resplice_fixed text B E C i j :
  occurrences text B = [i] →
  occurrences text E = [j] →
  i < j →
  occurrences (B ++ nl ++ C ++ nl ++ E) E = [length B + length C + 2] →
  ∃ r, replace_between_markers text B E C = Ok r
       ∧ replace_between_markers r B E C = Ok r
       ∧ occurs_at r B i
       ∧ occurs_at r E (i + length B + length C + 2).
Proof.
  intros HB HE Hij HBCE.
  eexists. apply splice_twice.
  - apply first_at_unique; [done | lia].
  - apply first_at_unique; [done | lia].
  - apply first_at_unique; [done | lia].
Qed.

Lemma resplice_fixed_witness :
  ∃ r, replace_between_markers (u "X <!--B--> old <!--E--> Y")
         (u "<!--B-->") (u "<!--E-->") (u "new") = Ok r
       ∧ replace_between_markers r (u "<!--B-->") (u "<!--E-->") (u "new") = Ok r
       ∧ occurs_at r (u "<!--B-->") 2
       ∧ occurs_at r (u "<!--E-->") (2 + length (u "<!--B-->") + length (u "new") + 2).
Proof.
  apply (resplice_fixed _ _ _ _ 2 15);
    [vm_compute; reflexivity | vm_compute; reflexivity | lia
    | vm_compute; reflexivity].
Defined.

(** ** Accent normalization *)

Lemma replace_go_absent old new s :
  Py.find_nat s old = None → Py.replace_go old new 0 s = s.
Proof.
  induction s as [|c s IH]; simpl; [done|].
  destruct (Py.starts_with old (c :: s)); [done|].
  destruct (Py.find_nat s old) eqn:E; [done|]. intros _. by rewrite IH.
Qed.

Lemma replace_absent s old new :
  Py.contains old s = false → Py.replace s old new = s.
Proof.
  unfold Py.contains, Py.replace. destruct old as [|a old].
  - by destruct s.
  - destruct (Py.find_nat s (a :: old)) eqn:E; [done|].
    intros _. by apply replace_go_absent.
Qed.

Lemma apply_replacements_absent table s :
  forallb (fun kv : str * str => negb (Py.contains kv.1 s)) table = true →
  apply_replacements table s = s.
Proof.
  unfold apply_replacements.
  induction table as [|[k v] table IH]; simpl; [done|].
  intros [Hk Ht]%andb_true_iff. apply negb_true_iff in Hk.
  rewrite replace_absent by done. by apply IH.
Qed.

Lemma remove_braces_none s :
  forallb (fun c => negb (is_brace c)) s = true → remove_braces s = s.
Proof.
  unfold remove_braces. induction s as [|c s IH]; simpl; [done|].
  intros [Hc Hs]%andb_true_iff. apply negb_true_iff in Hc.
  rewrite filter_cons_True by done. by rewrite IH.
Qed.

Lemma latex_to_unicode_normalized s :
  already_normalized s = true → latex_to_unicode s = s.
Proof.
  intros [Hb Hk]%andb_true_iff. unfold latex_to_unicode.
  rewrite apply_replacements_absent by done. by apply remove_braces_none.
Qed.

(** C8. On a string that is already normalized (no grouping brace, no
    escape sequence of the table) normalizing twice is the same as
    normalizing once; indeed such a string is left as it is. *)
Theorem latex_to_unicode_idempotent s :
  already_normalized s = true →
  latex_to_unicode (latex_to_unicode s) = latex_to_unicode s.
Proof.
  intros H. rewrite (latex_to_unicode_normalized s H).
  exact (latex_to_unicode_normalized s H).
Qed.

Lemma latex_to_unicode_idempotent_witness :
  already_normalized (u "Caf" ++ [233%N] ++ u " & co") = true ∧
  latex_to_unicode (latex_to_unicode (u "Caf" ++ [233%N] ++ u " & co"))
  = latex_to_unicode (u "Caf" ++ [233%N] ++ u " & co").
Proof.
  split; [vm_compute; reflexivity|].
  apply latex_to_unicode_idempotent. vm_compute. reflexivity.
Defined.

(** Without that condition the normalization is not idempotent: braces
    that separate the two backslashes of an ampersand escape disappear in
    the first pass, and the second pass then rewrites the escape. *)
Remark latex_to_unicode_not_idempotent :
  latex_to_unicode (latex_to_unicode (u "\{\&")) ≠ latex_to_unicode (u "\{\&").
Proof. vm_compute. discriminate. Qed.

Example latex_to_unicode_umlaut :
  latex_to_unicode (u "M{\" ++ dquote ++ u "u}ller \\& Co")
  = u "M" ++ [252%N] ++ u "ller & Co".
Proof. vm_compute. reflexivity. Qed.

Example latex_to_unicode_accents :
  latex_to_unicode (u "Ren{\'e} {Fran{\c{c}}ois}") = u "Ren" ++ [233%N] ++ u " Fran" ++ [231%N] ++ u "ois".
Proof. vm_compute. reflexivity. Qed.

(** ** The formatter: the shape of a fragment *)

Lemma getitem_kind e kind :
  has_kind e kind →
  ∃ t, getitem e (u "ENTRYTYPE") = Ok t ∧ Py.lower t = u kind.
Proof. intros (t & Ht & Hl). exists t. unfold getitem. by rewrite Ht. Qed.

Lemma eqb_refl s : Py.eqb s s = true.
Proof. unfold Py.eqb. by apply bool_decide_eq_true. Qed.

Lemma inproceedings_not_article :
  Py.eqb (u "inproceedings") (u "article") = false.
Proof. vm_compute. reflexivity. Qed.

Lemma mem_braces c : Py.mem c (u "{}") = is_brace c.
Proof. unfold Py.mem, is_brace. simpl. by rewrite orb_false_r. Qed.

Local Opaque u.

Ltac split_fields :=
  unfold journal_details, conference_details, hal_of, opt, field;
  repeat match goal with
         | |- context [truthy (get ?e ?k ?d)] =>
             destruct (get e k d) eqn:?; cbn [truthy]
         end;
  cbn [truthy]; rewrite <- ?app_assoc, ?app_nil_r; try reflexivity.

Ltac open_publication H :=
  let t := fresh "t" in
  let Ht := fresh "Ht" in
  let Hl := fresh "Hl" in
  apply getitem_kind in H as (t & Ht & Hl);
  unfold format_publication; rewrite Ht; cbn [mbind result_bind];
  rewrite Hl, ?inproceedings_not_article, eqb_refl.

Lemma article_tex hl e :
  has_kind e "article" →
  format_publication hl e false =
  Ok (Some (u "journal",
      u "\item " ++ format_authors hl (field e "author") false ++ u ". "
      ++ Py.strip_chars (field e "title") (u "{}") ++ u ". \textit{"
      ++ journal_details e ++ u "}."
      ++ match field e "doi" with
         | [] => []
         | doi => u ": \href{https://doi.org/" ++ doi ++ u "}{" ++ doi ++ u "}"
         end)).
Proof. intros H. open_publication H. split_fields. Qed.

Lemma article_web hl e :
  has_kind e "article" →
  format_publication hl e true =
  Ok (Some (u "journal",
      format_authors hl (field e "author") true ++ u ". "
      ++ latex_to_unicode (Py.strip_chars (field e "title") (u "{}"))
      ++ u ". <em>" ++ latex_to_unicode (journal_details e) ++ u "</em>."
      ++ match field e "doi" with
         | [] => []
         | doi => u " <a href=" ++ dquote ++ u "https://doi.org/" ++ doi
                    ++ dquote ++ u ">DOI</a>"
         end
      ++ match hal_of e with
         | [] => []
         | hal => u " <a href=" ++ dquote ++ hal ++ dquote ++ u ">HAL</a>"
         end)).
Proof. intros H. open_publication H. split_fields. Qed.

Lemma inproceedings_tex hl e :
  has_kind e "inproceedings" →
  format_publication hl e false =
  Ok (Some (u "conference",
      u "\item " ++ format_authors hl (field e "author") false ++ u ". "
      ++ Py.strip_chars (field e "title") (u "{}") ++ u ". \textit{"
      ++ conference_details e ++ u "}."
      ++ u ": \href{"
      ++ match field e "doi" with
         | [] => hal_of e
         | doi => u "https://doi.org/" ++ doi
         end
      ++ u "}{\nolinkurl{"
      ++ match field e "doi" with [] => hal_of e | doi => doi end
      ++ u "}}")).
Proof. intros H. open_publication H. split_fields. Qed.

Lemma inproceedings_web hl e :
  has_kind e "inproceedings" →
  format_publication hl e true =
  Ok (Some (u "conference",
      format_authors hl (field e "author") true ++ u ". "
      ++ latex_to_unicode (Py.strip_chars (field e "title") (u "{}"))
      ++ u ". <em>" ++ latex_to_unicode (conference_details e) ++ u "</em>."
      ++ match field e "doi" with
         | [] => []
         | doi => u " <a href=" ++ dquote ++ u "https://doi.org/" ++ doi
                    ++ dquote ++ u ">DOI</a>"
         end
      ++ match hal_of e with
         | [] => []
         | hal => u " <a href=" ++ dquote ++ hal ++ dquote ++ u ">HAL</a>"
         end)).
Proof. intros H. open_publication H. split_fields. Qed.

Lemma format_authors_names hl e html :
  format_authors hl (field e "author") html =
  let joined := Py.join (u ", ") (map (emphasize hl html) (author_names e)) in
  if html then latex_to_unicode joined else joined.
Proof. reflexivity. Qed.

(** ** Stripping characters from both ends *)

Lemma lstrip_by_split p s :
  ∃ l, s = l ++ Py.lstrip_by p s ∧ forallb p l = true
       ∧ ∀ c, head (Py.lstrip_by p s) = Some c → p c = false.
Proof.
  induction s as [|c s (l & Hs & Hl & Hh)]; simpl.
  - exists []. done.
  - destruct (p c) eqn:Hc.
    + exists (c :: l). simpl. rewrite Hc, Hl. split; [by f_equal|done].
    + exists []. split; [done|]. split; [done|]. simpl. by intros ? [= <-].
Qed.

Lemma strip_by_split p s :
  ∃ l r, s = l ++ Py.strip_by p s ++ r
         ∧ forallb p l = true ∧ forallb p r = true
         ∧ (∀ c, head (Py.strip_by p s) = Some c → p c = false)
         ∧ (∀ c, last (Py.strip_by p s) = Some c → p c = false).
Proof.
  unfold Py.strip_by.
  destruct (lstrip_by_split p s) as (l & Hs & Hl & Hh).
  destruct (lstrip_by_split p (rev (Py.lstrip_by p s))) as (r & Hr & Hrp & Hrh).
  set (s1 := Py.lstrip_by p s) in *.
  set (t := Py.lstrip_by p (rev s1)) in *.
  assert (Hs1 : s1 = rev t ++ rev r).
  { rewrite <- (rev_involutive s1), Hr. apply rev_app_distr. }
  exists l, (rev r). split; [by rewrite <- Hs1|]. split; [done|].
  split; [|split].
  - rewrite forallb_forall in *. intros c Hc. apply Hrp. by apply in_rev.
  - intros c Hc. apply Hh. rewrite Hs1. destruct (rev t); [done|]. done.
  - intros c Hc. apply Hrh. destruct t as [|c' t']; [done|].
    simpl in Hc. rewrite last_snoc in Hc. done.
Qed.

(** ** The formatter: the claims *)

(** C3, as stated, fails.  Take the web side as the text left when the tags
    are dropped, and let the structured fragment be stripped in any way
    that introduces no ASCII character: the journal record with a hal
    identifier and no doi shows the label HAL on the web side, while its
    structured fragment has no link and no letter H at all. *)
Lemma markup_stripping_counterexample :
  ¬ ∃ strip_structured : str → str,
      (∀ s c, (c < 128)%N → c ∈ strip_structured s → c ∈ s) ∧
      (∀ hl e cat tex web,
         has_kind e "article" ∨ has_kind e "inproceedings" →
         format_publication hl e false = Ok (Some (cat, tex)) →
         format_publication hl e true = Ok (Some (cat, web)) →
         strip_structured tex = strip_web web).
Proof.
  intros (strip & Hsub & Heq).
  pose (tex := u "\item A. One. Study. \textit{J, 2020}.").
  pose (web := u "A. One. Study. <em>J, 2020</em>. <a href=" ++ dquote
                 ++ u "hal-01" ++ dquote ++ u ">HAL</a>").
  assert (H : strip tex = strip_web web).
  { apply (Heq (u "Two") hal_only (u "journal")).
    - left. exists (u "article"). split; vm_compute; reflexivity.
    - vm_compute. reflexivity.
    - vm_compute. reflexivity. }
  assert (Hin : 72%N ∈ strip_web web).
  { apply (bool_decide_unpack _). vm_compute. exact I. }
  rewrite <- H in Hin. apply Hsub in Hin; [|lia].
  revert Hin. apply (bool_decide_unpack (72%N ∉ tex)). vm_compute. exact I.
Qed.

(** C3, amended.  For every record of a recognized kind the two fragments
    are built from the same author names in the same order, the same title
    and the same venue string, in the same places; a name is emphasised in
    one dialect exactly when it is in the other, namely when it contains
    the highlighted name; the web dialect passes authors, title and venue
    through accent normalization.  Beyond the wrapper markup the fragments
    differ only in what follows the venue, and that is fixed as well: the
    web fragment ends with its DOI and HAL links, the structured journal
    fragment with the doi link alone, the structured conference fragment
    with its link, which is always there. *)
Theorem renderings_share_content hl e :
  has_kind e "article" ∨ has_kind e "inproceedings" →
  ∃ cat details tex_links,
    (has_kind e "article" ∧ cat = u "journal"
       ∧ details = journal_details e ∧ tex_links = journal_link e
     ∨ has_kind e "inproceedings" ∧ cat = u "conference"
       ∧ details = conference_details e ∧ tex_links = conference_link e) ∧
    format_publication hl e false =
      Ok (Some (cat,
        u "\item "
        ++ Py.join (u ", ") (map (emphasize hl false) (author_names e))
        ++ u ". " ++ Py.strip_chars (field e "title") (u "{}")
        ++ u ". \textit{" ++ details ++ u "}." ++ tex_links)) ∧
    format_publication hl e true =
      Ok (Some (cat,
        latex_to_unicode
          (Py.join (u ", ") (map (emphasize hl true) (author_names e)))
        ++ u ". "
        ++ latex_to_unicode (Py.strip_chars (field e "title") (u "{}"))
        ++ u ". <em>" ++ latex_to_unicode details ++ u "</em>."
        ++ web_links e)) ∧
    Forall (fun a =>
      Py.contains hl a = true
        ∧ emphasize hl false a = u "\textbf{" ++ a ++ u "}"
        ∧ emphasize hl true a = u "<strong>" ++ a ++ u "</strong>"
      ∨ Py.contains hl a = false
        ∧ emphasize hl false a = a ∧ emphasize hl true a = a)
      (author_names e).
Proof.
  intros Hkind.
  assert (Hemph : Forall (fun a =>
      Py.contains hl a = true
        ∧ emphasize hl false a = u "\textbf{" ++ a ++ u "}"
        ∧ emphasize hl true a = u "<strong>" ++ a ++ u "</strong>"
      ∨ Py.contains hl a = false
        ∧ emphasize hl false a = a ∧ emphasize hl true a = a)
      (author_names e)).
  { apply Forall_forall. intros a _. unfold emphasize.
    destruct (Py.contains hl a); [by left | by right]. }
  destruct Hkind as [H|H].
  - exists (u "journal"), (journal_details e), (journal_link e).
    split; [left; done|]. split; [|split; [|done]].
    + rewrite (article_tex hl e H). reflexivity.
    + rewrite (article_web hl e H). reflexivity.
  - exists (u "conference"), (conference_details e), (conference_link e).
    split; [right; done|]. split; [|split; [|done]].
    + rewrite (inproceedings_tex hl e H). reflexivity.
    + rewrite (inproceedings_web hl e H). reflexivity.
Qed.

Lemma renderings_share_content_witness :
  ∃ cat details tex_links,
    (has_kind study "article" ∧ cat = u "journal"
       ∧ details = journal_details study ∧ tex_links = journal_link study
     ∨ has_kind study "inproceedings" ∧ cat = u "conference"
       ∧ details = conference_details study
       ∧ tex_links = conference_link study) ∧
    format_publication (u "Two") study false =
      Ok (Some (cat,
        u "\item "
        ++ Py.join (u ", ") (map (emphasize (u "Two") false) (author_names study))
        ++ u ". " ++ Py.strip_chars (field study "title") (u "{}")
        ++ u ". \textit{" ++ details ++ u "}." ++ tex_links)) ∧
    format_publication (u "Two") study true =
      Ok (Some (cat,
        latex_to_unicode
          (Py.join (u ", ") (map (emphasize (u "Two") true) (author_names study)))
        ++ u ". "
        ++ latex_to_unicode (Py.strip_chars (field study "title") (u "{}"))
        ++ u ". <em>" ++ latex_to_unicode details ++ u "</em>."
        ++ web_links study)) ∧
    Forall (fun a =>
      Py.contains (u "Two") a = true
        ∧ emphasize (u "Two") false a = u "\textbf{" ++ a ++ u "}"
        ∧ emphasize (u "Two") true a = u "<strong>" ++ a ++ u "</strong>"
      ∨ Py.contains (u "Two") a = false
        ∧ emphasize (u "Two") false a = a ∧ emphasize (u "Two") true a = a)
      (author_names study).
Proof.
  apply (renderings_share_content (u "Two") study).
  left. exists (u "article"). split; vm_compute; reflexivity.
Defined.

(** C5, as stated, fails: a doubly braced title loses both pairs of braces,
    in the structured dialect too. *)
Lemma title_strip_counterexample :
  format_publication (u "Two") double_braced false
  = Ok (Some (u "journal",
         u "\item A. One, \textbf{B. Two}. Study. \textit{J, 2020}.: \href{https://doi.org/10.1/x}{10.1/x}"))
  ∧ format_publication (u "Two") double_braced false
  ≠ Ok (Some (u "journal",
         u "\item A. One, \textbf{B. Two}. {Study}. \textit{J, 2020}.: \href{https://doi.org/10.1/x}{10.1/x}")).
Proof. split; vm_compute; [reflexivity | discriminate]. Qed.

(** C5, amended.  In both dialects the title enters the fragment, right
    after the authors, without any of the braces it starts or ends with:
    the title field is [l ++ T ++ r] where [l] and [r] consist of braces
    only and [T] neither starts nor ends with a brace, and the fragment
    shows [T], accent-normalized in the web dialect only. *)
Theorem title_braces_stripped hl e html :
  has_kind e "article" ∨ has_kind e "inproceedings" →
  ∃ T l r cat rest,
    field e "title" = l ++ T ++ r ∧
    forallb is_brace l = true ∧ forallb is_brace r = true ∧
    (∀ c, head T = Some c → is_brace c = false) ∧
    (∀ c, last T = Some c → is_brace c = false) ∧
    format_publication hl e html =
      Ok (Some (cat,
        (if html then [] else u "\item ")
        ++ format_authors hl (field e "author") html ++ u ". "
        ++ (if html then latex_to_unicode T else T) ++ u ". " ++ rest)).
Proof.
  intros Hkind.
  destruct (strip_by_split (fun c => Py.mem c (u "{}")) (field e "title"))
    as (l & r & Hs & Hl & Hr & Hh & Hla).
  exists (Py.strip_chars (field e "title") (u "{}")), l, r.
  assert (Hb : ∀ x, forallb (fun c => Py.mem c (u "{}")) x = forallb is_brace x).
  { intros x. induction x as [|c x IH]; simpl; [done|].
    by rewrite mem_braces, IH. }
  rewrite Hb in Hl, Hr.
  assert (∃ cat rest,
    format_publication hl e html =
      Ok (Some (cat,
        (if html then [] else u "\item ")
        ++ format_authors hl (field e "author") html ++ u ". "
        ++ (if html
            then latex_to_unicode (Py.strip_chars (field e "title") (u "{}"))
            else Py.strip_chars (field e "title") (u "{}"))
        ++ u ". " ++ rest))) as (cat & rest & Hfmt).
  { assert (Hem : u ". <em>" = u ". " ++ u "<em>") by (vm_compute; reflexivity).
    assert (Hit : u ". \textit{" = u ". " ++ u "\textit{")
      by (vm_compute; reflexivity).
    destruct Hkind as [H|H], html.
    - rewrite (article_web hl e H), Hem, <- !app_assoc.
      eexists _, _. reflexivity.
    - rewrite (article_tex hl e H), Hit, <- !app_assoc.
      eexists _, _. reflexivity.
    - rewrite (inproceedings_web hl e H), Hem, <- !app_assoc.
      eexists _, _. reflexivity.
    - rewrite (inproceedings_tex hl e H), Hit, <- !app_assoc.
      eexists _, _. reflexivity. }
  exists cat, rest. split; [done|]. split; [done|]. split; [done|].
  split; [|split; [|done]].
  - intros c Hc. rewrite <- mem_braces. by apply Hh.
  - intros c Hc. rewrite <- mem_braces. by apply Hla.
Qed.

Lemma title_braces_stripped_witness :
  ∃ T l r cat rest,
    field double_braced "title" = l ++ T ++ r ∧
    forallb is_brace l = true ∧ forallb is_brace r = true ∧
    (∀ c, head T = Some c → is_brace c = false) ∧
    (∀ c, last T = Some c → is_brace c = false) ∧
    format_publication (u "Two") double_braced false =
      Ok (Some (cat,
        u "\item "
        ++ format_authors (u "Two") (field double_braced "author") false
        ++ u ". " ++ T ++ u ". " ++ rest)).
Proof.
  apply (title_braces_stripped (u "Two") double_braced false).
  left. exists (u "article"). split; vm_compute; reflexivity.
Defined.

(** C10.  The structured fragment of a conference paper always ends with a
    link command; when the record has neither doi nor hal identifier nor
    url, that command is there with an empty target and an empty label. *)
Theorem conference_link_never_omitted hl e :
  has_kind e "inproceedings" →
  let body :=
    u "\item " ++ format_authors hl (field e "author") false ++ u ". "
    ++ Py.strip_chars (field e "title") (u "{}") ++ u ". \textit{"
    ++ conference_details e ++ u "}." in
  (∃ target label,
     format_publication hl e false =
       Ok (Some (u "conference",
         body ++ u ": \href{" ++ target ++ u "}{\nolinkurl{" ++ label ++ u "}}")))
  ∧ (field e "doi" = [] → field e "hal_id" = [] → field e "url" = [] →
     format_publication hl e false =
       Ok (Some (u "conference", body ++ u ": \href{}{\nolinkurl{}}"))).
Proof.
  intros H body. rewrite (inproceedings_tex hl e H).
  unfold body. split.
  - exists (match field e "doi" with
            | [] => hal_of e
            | doi => u "https://doi.org/" ++ doi
            end),
           (match field e "doi" with [] => hal_of e | doi => doi end).
    by rewrite <- !app_assoc.
  - intros Hdoi Hhal Hurl. unfold hal_of. rewrite Hdoi, Hhal, Hurl.
    rewrite <- !app_assoc. do 3 f_equal.
    all: repeat (apply (f_equal (app _))); vm_compute; reflexivity.
Qed.

Lemma conference_link_never_omitted_witness :
  format_publication (u "Two") bare_conference false
  = Ok (Some (u "conference",
      u "\item A. One. Study. \textit{Proc}.: \href{}{\nolinkurl{}}")).
Proof.
  destruct (conference_link_never_omitted (u "Two") bare_conference) as [_ H].
  - exists (u "InProceedings"). split; vm_compute; reflexivity.
  - rewrite H; [vm_compute; reflexivity | vm_compute; reflexivity ..].
Defined.

(** ** Sorting *)

Lemma ltb_irrefl a : Py.ltb a a = false.
Proof.
  induction a as [|x a IH]; simpl; [done|].
  by rewrite N.ltb_irrefl.
Qed.

Lemma ltb_not_below_trans a b c :
  Py.ltb a b = false → Py.ltb b c = false → Py.ltb a c = false.
Proof.
  revert b c. induction a as [|x a IH]; intros [|y b] [|z c]; simpl; try done.
  destruct (N.ltb_spec x y); [done|].
  destruct (N.ltb_spec y x).
  - intros _. destruct (N.ltb_spec y z); [done|].
    destruct (N.ltb_spec z y).
    + intros _. destruct (N.ltb_spec x z); [lia|].
      destruct (N.ltb_spec z x); [done|lia].
    + intros _. destruct (N.ltb_spec x z); [lia|].
      destruct (N.ltb_spec z x); [done|lia].
  - assert (x = y) as -> by lia.
    destruct (N.ltb_spec y z); [done|].
    destruct (N.ltb_spec z y); [done|]. apply IH.
Qed.

Lemma ltb_asym a b : Py.ltb a b = true → Py.ltb b a = false.
Proof.
  revert b. induction a as [|x a IH]; intros [|y b]; simpl; try done.
  destruct (N.ltb_spec x y).
  - intros _. destruct (N.ltb_spec y x); [lia|done].
  - destruct (N.ltb_spec y x); [done|]. apply IH.
Qed.

Section Sorting.

Variable key : entry → str.

Lemma insert_desc_perm x l : insert_desc key x l ≡ₚ x :: l.
Proof.
  induction l as [|y l IH]; simpl; [done|].
  destruct (Py.ltb (key x) (key y)); [|done].
  rewrite IH. apply Permutation_swap.
Qed.

Lemma sort_reverse_perm l : sort_reverse key l ≡ₚ l.
Proof.
  induction l as [|x l IH]; simpl; [done|].
  by rewrite insert_desc_perm, IH.
Qed.

Lemma insert_desc_sorted x l :
  StronglySorted (not_below key) l →
  StronglySorted (not_below key) (insert_desc key x l).
Proof.
  induction 1 as [|y l Hl IH Hy]; simpl.
  - repeat constructor.
  - destruct (Py.ltb (key x) (key y)) eqn:E.
    + constructor; [done|].
      rewrite insert_desc_perm. constructor; [|done].
      by apply ltb_asym.
    + constructor; [by constructor|]. constructor; [done|].
      eapply Forall_impl; [done|]. intros z Hz.
      by eapply ltb_not_below_trans.
Qed.

Lemma sort_reverse_sorted l : StronglySorted (not_below key) (sort_reverse key l).
Proof.
  induction l as [|x l IH]; simpl; [constructor|].
  by apply insert_desc_sorted.
Qed.

(** A record with a strictly greater key stands before one with a smaller
    key. *)
Lemma sort_reverse_order l e1 e2 :
  e1 ∈ l → e2 ∈ l → Py.ltb (key e2) (key e1) = true →
  ∃ l1 l2 l3, sort_reverse key l = l1 ++ e1 :: l2 ++ e2 :: l3.
Proof.
  intros H1 H2 Hlt.
  pose proof (sort_reverse_sorted l) as Hs.
  rewrite <- (sort_reverse_perm l) in H1, H2.
  apply list_elem_of_split in H1 as (l1 & l' & Hl). rewrite Hl in *.
  apply elem_of_app in H2 as [H2|H2].
  - exfalso.
    assert (Hge : not_below key e2 e1).
    { eapply StronglySorted_app_1_elem_of; [exact Hs | exact H2 | by left]. }
    unfold not_below in Hge. congruence.
  - apply elem_of_cons in H2 as [->|H2].
    + by rewrite ltb_irrefl in Hlt.
    + apply list_elem_of_split in H2 as (l2 & l3 & ->). by exists l1, l2, l3.
Qed.

End Sorting.

(** ** Bucketing *)

Lemma journal_not_conference : Py.eqb (u "journal") (u "conference") = false.
Proof. vm_compute. reflexivity. Qed.

Lemma format_publication_ok hl e html :
  is_Some (e !! u "ENTRYTYPE") → ∃ r, format_publication hl e html = Ok r.
Proof.
  intros [t Ht]. unfold format_publication, getitem. rewrite Ht.
  cbn [mbind result_bind].
  destruct (Py.eqb (Py.lower t) (u "article")); [by eexists|].
  destruct (Py.eqb (Py.lower t) (u "inproceedings")); by eexists.
Qed.

Lemma pub_lines_cons hl html cat e es :
  pub_lines hl html cat (e :: es) =
  pub_lines hl html cat [e] ++ pub_lines hl html cat es.
Proof. unfold pub_lines. cbn [flat_map]. by rewrite app_nil_r. Qed.

Lemma pub_lines_single hl html cat e :
  pub_lines hl html cat [e] = pub_line hl html cat e.
Proof. unfold pub_lines. cbn [flat_map]. by rewrite app_nil_r. Qed.

Lemma pub_lines_app hl html cat es1 es2 :
  pub_lines hl html cat (es1 ++ es2) =
  pub_lines hl html cat es1 ++ pub_lines hl html cat es2.
Proof. apply flat_map_app. Qed.

Lemma pub_step_lines hl b e :
  is_Some (e !! u "ENTRYTYPE") →
  pub_step hl b e =
  Ok (PubBuckets
        (journal_tex_entries b ++ pub_lines hl false (u "journal") [e])
        (conf_tex_entries b ++ pub_lines hl false (u "conference") [e])
        (journal_html_entries b ++ pub_lines hl true (u "journal") [e])
        (conf_html_entries b ++ pub_lines hl true (u "conference") [e])).
Proof.
  intros He.
  destruct (format_publication_ok hl e false He) as [r0 H0].
  destruct (format_publication_ok hl e true He) as [r1 H1].
  unfold pub_step, pub_lines, pub_line. cbn [flat_map]. rewrite H0, H1.
  cbn [mbind result_bind mret result_ret]. destruct b as [jt ct jh ch].
  cbn [journal_tex_entries conf_tex_entries journal_html_entries
       conf_html_entries shown].
  assert (Hcat : ∀ c, Py.eqb c (u "journal") = true →
                      Py.eqb c (u "conference") = false).
  { intros c ->%bool_decide_eq_true. apply journal_not_conference. }
  destruct r0 as [[c0 line0]|], r1 as [[c1 line1]|];
    repeat match goal with
           | |- context [Py.eqb ?c (u "journal")] =>
               let E := fresh "E" in
               destruct (Py.eqb c (u "journal")) eqn:E;
               [rewrite (Hcat c E)|]
           | |- context [Py.eqb ?c (u "conference")] =>
               destruct (Py.eqb c (u "conference"))
           end;
    cbn [journal_tex_entries conf_tex_entries journal_html_entries
         conf_html_entries];
    by rewrite ?app_nil_r.
Qed.

Lemma pub_loop_lines hl es b :
  (∀ e, e ∈ es → is_Some (e !! u "ENTRYTYPE")) →
  pub_loop hl b es =
  Ok (PubBuckets
        (journal_tex_entries b ++ pub_lines hl false (u "journal") es)
        (conf_tex_entries b ++ pub_lines hl false (u "conference") es)
        (journal_html_entries b ++ pub_lines hl true (u "journal") es)
        (conf_html_entries b ++ pub_lines hl true (u "conference") es)).
Proof.
  revert b. induction es as [|e es IH]; intros b Hes.
  - destruct b. simpl. by rewrite !app_nil_r.
  - cbn [pub_loop]. rewrite pub_step_lines by (apply Hes; by left).
    cbn [mbind result_bind]. rewrite IH by (intros; apply Hes; by right).
    cbn [journal_tex_entries conf_tex_entries journal_html_entries
         conf_html_entries].
    rewrite !(pub_lines_cons hl _ _ e es). by rewrite <- !app_assoc.
Qed.

Lemma talk_lines_cons html conf e es :
  talk_lines html conf (e :: es) =
  talk_lines html conf [e] ++ talk_lines html conf es.
Proof. unfold talk_lines. cbn [flat_map]. by rewrite app_nil_r. Qed.

Lemma talk_lines_single html conf e :
  talk_lines html conf [e] = talk_line html conf e.
Proof. unfold talk_lines. cbn [flat_map]. by rewrite app_nil_r. Qed.

Lemma talk_lines_app html conf es1 es2 :
  talk_lines html conf (es1 ++ es2) =
  talk_lines html conf es1 ++ talk_lines html conf es2.
Proof. apply flat_map_app. Qed.

Lemma talk_step_lines b e :
  talk_step b e =
  TalkBuckets
    (conf_talks_tex b ++ talk_lines false true [e])
    (other_talks_tex b ++ talk_lines false false [e])
    (conf_talks_html b ++ talk_lines true true [e])
    (other_talks_html b ++ talk_lines true false [e]).
Proof.
  unfold talk_step, talk_lines, talk_line. cbn [flat_map].
  destruct (format_talk e false) as [c0 line0].
  destruct (format_talk e true) as [c1 line1].
  destruct b as [ct ot ch oh].
  destruct (Py.eqb c0 (u "conference")), (Py.eqb c1 (u "conference"));
    cbn [Bool.eqb conf_talks_tex other_talks_tex conf_talks_html
         other_talks_html shown];
    by rewrite ?app_nil_r.
Qed.

Lemma talk_loop_lines es b :
  fold_left talk_step es b =
  TalkBuckets
    (conf_talks_tex b ++ talk_lines false true es)
    (other_talks_tex b ++ talk_lines false false es)
    (conf_talks_html b ++ talk_lines true true es)
    (other_talks_html b ++ talk_lines true false es).
Proof.
  revert b. induction es as [|e es IH]; intros b.
  - destruct b. simpl. by rewrite !app_nil_r.
  - cbn [fold_left]. rewrite IH, talk_step_lines.
    cbn [conf_talks_tex other_talks_tex conf_talks_html other_talks_html].
    rewrite !(talk_lines_cons _ _ e es). by rewrite <- !app_assoc.
Qed.

(** ** Year strings and numbers *)

Lemma decimal_bound s :
  forallb is_digit s = true → (decimal s < 10 ^ N.of_nat (length s))%N.
Proof.
  induction s as [|c s IH]; [by intros _; vm_compute|].
  cbn [forallb decimal length]. intros [Hc Hs]%andb_true_iff.
  specialize (IH Hs). unfold is_digit in Hc.
  apply andb_true_iff in Hc as [H1%N.leb_le H2%N.leb_le].
  rewrite Nat2N.inj_succ, N.pow_succ_r'. nia.
Qed.

(** On digit strings of one length the string order is the order of the
    numbers: this is where sorting by the year string sorts by year. *)
Lemma ltb_decimal a b :
  length a = length b →
  forallb is_digit a = true → forallb is_digit b = true →
  Py.ltb a b = true ↔ (decimal a < decimal b)%N.
Proof.
  revert b. induction a as [|x a IH]; intros [|y b]; try done.
  cbn [forallb decimal length Py.ltb].
  intros [= Hlen] [Hx Ha]%andb_true_iff [Hy Hb]%andb_true_iff.
  pose proof (decimal_bound a Ha) as Hda.
  pose proof (decimal_bound b Hb) as Hdb.
  rewrite <- Hlen in *. unfold is_digit in Hx, Hy.
  apply andb_true_iff in Hx as [Hx1%N.leb_le Hx2%N.leb_le].
  apply andb_true_iff in Hy as [Hy1%N.leb_le Hy2%N.leb_le].
  set (P := (10 ^ N.of_nat (length a))%N) in *.
  destruct (N.ltb_spec x y).
  - split; [intros _; nia | done].
  - destruct (N.ltb_spec y x).
    + split; [done | intros; nia].
    + assert (x = y) as -> by lia. rewrite (IH b Hlen Ha Hb). lia.
Qed.

(** ** Sorting and bucketing: the claims *)

(** C4, as stated, fails: the years are compared as strings, so a record
    whose year is not a number comes before the record of 2020 instead of
    after it. *)
Lemma year_order_counterexample :
  field dated "year" = u "2020" ∧ field undated "year" = u "n.d." ∧
  ∃ b, publications (u "Two") [dated; undated] = Ok b ∧
       journal_tex_entries b =
         [u "\item . Undated. \textit{, n.d.}."; u "\item . Dated. \textit{, 2020}."] ∧
       ¬ precedes (u "\item . Dated. \textit{, 2020}.")
                  (u "\item . Undated. \textit{, n.d.}.")
                  (journal_tex_entries b).
Proof.
  split; [vm_compute; reflexivity|]. split; [vm_compute; reflexivity|].
  eexists. split; [vm_compute; reflexivity|]. split; [vm_compute; reflexivity|].
  intros (l1 & l2 & l3 & H). vm_compute in H.
  destruct l1 as [|? [|? l1]]; [|destruct l2; discriminate|
    destruct l1; discriminate].
  injection H as H _. discriminate.
Qed.

Lemma pub_lines_precede hl html cat es e1 e2 line1 line2 l1 l2 l3 :
  es = l1 ++ e1 :: l2 ++ e2 :: l3 →
  format_publication hl e1 html = Ok (Some (cat, line1)) →
  format_publication hl e2 html = Ok (Some (cat, line2)) →
  precedes (shown html line1) (shown html line2) (pub_lines hl html cat es).
Proof.
  intros -> H1 H2.
  exists (pub_lines hl html cat l1), (pub_lines hl html cat l2),
         (pub_lines hl html cat l3).
  rewrite pub_lines_app, (pub_lines_cons _ _ _ e1 (l2 ++ e2 :: l3)),
    pub_lines_app, (pub_lines_cons _ _ _ e2 l3).
  rewrite !pub_lines_single. unfold pub_line.
  rewrite H1, H2, eqb_refl. done.
Qed.

Lemma talk_lines_precede html es e1 e2 l1 l2 l3 :
  es = l1 ++ e1 :: l2 ++ e2 :: l3 →
  let conf := Py.eqb (format_talk e1 html).1 (u "conference") in
  Py.eqb (format_talk e2 html).1 (u "conference") = conf →
  precedes (shown html (format_talk e1 html).2)
           (shown html (format_talk e2 html).2)
           (talk_lines html conf es).
Proof.
  intros -> conf H2.
  exists (talk_lines html conf l1), (talk_lines html conf l2),
         (talk_lines html conf l3).
  rewrite talk_lines_app, (talk_lines_cons _ _ e1 (l2 ++ e2 :: l3)),
    talk_lines_app, (talk_lines_cons _ _ e2 l3).
  rewrite !talk_lines_single. unfold talk_line.
  subst conf.
  destruct (format_talk e1 html) as [c1 t1].
  destruct (format_talk e2 html) as [c2 t2].
  cbn [fst snd] in *. rewrite H2, Bool.eqb_reflx. done.
Qed.

(** C4, amended.  The records are sorted, stably, into descending order of
    the year field compared as a string, a missing year counting as "0".
    So whenever the year string of one record is strictly greater than that
    of another, the first record's fragment comes before the second's in
    every bucket they share, in both dialects, for publications and for
    talks. *)
Theorem buckets_follow_year_strings hl es e1 e2 :
  e1 ∈ es → e2 ∈ es →
  Py.ltb (year_key e2) (year_key e1) = true →
  ((∀ e, e ∈ es → is_Some (e !! u "ENTRYTYPE")) →
   ∃ b, publications hl es = Ok b ∧
        ∀ html cat line1 line2,
          format_publication hl e1 html = Ok (Some (cat, line1)) →
          format_publication hl e2 html = Ok (Some (cat, line2)) →
          precedes (shown html line1) (shown html line2) (pub_bucket b html cat))
  ∧ (∀ html,
       Py.eqb (format_talk e2 html).1 (u "conference")
       = Py.eqb (format_talk e1 html).1 (u "conference") →
       precedes (shown html (format_talk e1 html).2)
                (shown html (format_talk e2 html).2)
                (talk_bucket (talks es) html (format_talk e1 html).1)).
Proof.
  intros H1 H2 Hlt.
  destruct (sort_reverse_order year_key es e1 e2 H1 H2 Hlt)
    as (l1 & l2 & l3 & Hsort).
  split.
  - intros Hes. unfold publications.
    rewrite pub_loop_lines; cycle 1.
    { intros e He. apply Hes. by rewrite <- (sort_reverse_perm year_key es). }
    eexists. split; [done|].
    intros html cat line1 line2 Hf1 Hf2.
    pose proof (pub_lines_precede hl html cat _ _ _ _ _ _ _ _ Hsort Hf1 Hf2)
      as Hp.
    assert (Hcat : cat = u "journal" ∨ cat = u "conference").
    { destruct (format_publication_ok hl e1 html (Hes e1 H1)) as [r Hr].
      revert Hf1. unfold format_publication, getitem.
      destruct (Hes e1 H1) as [t ->]. cbn [mbind result_bind].
      destruct (Py.eqb (Py.lower t) (u "article")); [intros [= <- _]; by left|].
      destruct (Py.eqb (Py.lower t) (u "inproceedings"));
        [intros [= <- _]; by right | done]. }
    unfold pub_bucket. cbn [journal_tex_entries conf_tex_entries
      journal_html_entries conf_html_entries no_pubs].
    destruct Hcat as [-> | ->].
    + rewrite eqb_refl. by destruct html.
    + replace (Py.eqb (u "conference") (u "journal")) with false
        by (vm_compute; reflexivity).
      rewrite eqb_refl. by destruct html.
  - intros html Hsame. unfold talks. rewrite talk_loop_lines.
    pose proof (talk_lines_precede html _ _ _ _ _ _ Hsort Hsame) as Hp.
    unfold talk_bucket. cbn [conf_talks_tex other_talks_tex conf_talks_html
      other_talks_html no_talks].
    destruct (Py.eqb (format_talk e1 html).1 (u "conference")), html; exact Hp.
Qed.

Lemma buckets_follow_year_strings_witness :
  ∃ b, publications (u "Two") [dated; undated] = Ok b ∧
       ∀ html cat line1 line2,
         format_publication (u "Two") undated html = Ok (Some (cat, line1)) →
         format_publication (u "Two") dated html = Ok (Some (cat, line2)) →
         precedes (shown html line1) (shown html line2) (pub_bucket b html cat).
Proof.
  refine (proj1 (buckets_follow_year_strings (u "Two") [dated; undated]
                   undated dated _ _ _) _).
  - apply (bool_decide_unpack _). vm_compute. exact I.
  - apply (bool_decide_unpack _). vm_compute. exact I.
  - vm_compute. reflexivity.
  - intros e He. apply (bool_decide_unpack _).
    apply elem_of_cons in He as [->|He];
      [|apply list_elem_of_singleton in He as ->]; vm_compute; exact I.
Defined.

(** ** The formatter: examples *)

(** C9. The web rendering of the sample journal article, with "Two" as the
    highlighted name: the emphasised author list, the title without its
    braces, the venue, and a single link, labelled DOI, to the doi.org
    address; no HAL link. *)
Theorem study_web :
  format_publication (u "Two") study true
  = Ok (Some (u "journal",
        u "A. One, <strong>B. Two</strong>. Study. <em>J, 2020</em>. <a href="
        ++ dquote ++ u "https://doi.org/10.1/x" ++ dquote ++ u ">DOI</a>")).
Proof. vm_compute. reflexivity. Qed.

(** * Further properties of the script *)

(** ** Characters kept and introduced *)

Lemma forallb_sub (P : N → bool) (a b : str) :
  a ⊆ b → forallb P b = true → forallb P a = true.
Proof.
  rewrite !forallb_forall. intros Hsub Hb c Hc%list_elem_of_In.
  apply Hb, list_elem_of_In, Hsub, Hc.
Qed.

(** A replacement brings in no character other than those of the new
    text. *)
Lemma replace_go_forallb (P : N → bool) old new k s :
  forallb P s = true → forallb P new = true →
  forallb P (Py.replace_go old new k s) = true.
Proof.
  intros Hs Hnew. revert k. induction s as [|c s IH]; intros k; [done|].
  cbn [forallb] in Hs. apply andb_true_iff in Hs as [Hc Hs].
  cbn [Py.replace_go]. destruct k as [|k]; [|by apply IH].
  destruct (Py.starts_with old (c :: s)).
  - rewrite forallb_app, Hnew. by apply IH.
  - cbn [forallb]. rewrite Hc. by apply IH.
Qed.

Lemma replace_forallb (P : N → bool) s old new :
  forallb P s = true → forallb P new = true →
  forallb P (Py.replace s old new) = true.
Proof.
  intros Hs Hnew. unfold Py.replace. destruct old as [|a old].
  - rewrite forallb_app, Hnew. cbn [andb].
    induction s as [|c s IH]; [done|].
    cbn [forallb] in Hs. apply andb_true_iff in Hs as [Hc Hs].
    cbn [flat_map app forallb]. rewrite Hc, forallb_app, Hnew. by apply IH.
  - by apply replace_go_forallb.
Qed.

(** ** Accent normalization and the web dialect *)

Lemma no_brace_app a b : no_brace (a ++ b) = no_brace a && no_brace b.
Proof. apply forallb_app. Qed.

Lemma latex_to_unicode_brace_free s : no_brace (latex_to_unicode s) = true.
Proof.
  unfold no_brace, latex_to_unicode, remove_braces.
  apply forallb_forall. intros c Hc%list_elem_of_In%list_elem_of_filter.
  destruct Hc as [-> _]. done.
Qed.

(** X1.  Whatever the input, the normalized text holds no brace, and
    normalizing it once more can only rewrite ampersand escapes: every other
    entry of the table needs a brace to apply. *)
Theorem latex_to_unicode_leaves_no_brace s :
  no_brace (latex_to_unicode s) = true
  ∧ latex_to_unicode (latex_to_unicode s)
    = Py.replace (latex_to_unicode s) (u "\\&") (u "&").
Proof.
  split; [apply latex_to_unicode_brace_free|].
  pose proof (latex_to_unicode_brace_free s) as Hnb.
  set (t := latex_to_unicode s) in *. clearbody t.
  assert (Habsent : ∀ k v, no_brace k = false → Py.replace t k v = t).
  { intros k v Hk. apply replace_absent.
    unfold Py.contains. destruct (Py.find_nat t k) as [i|] eqn:E; [|done].
    exfalso. apply find_nat_Some in E as [[Hi Ht] _].
    assert (Hsub : no_brace k = true); [|congruence].
    rewrite <- Ht. unfold no_brace in *.
    eapply forallb_sub; [|exact Hnb].
    etrans; [apply subseteq_take | apply subseteq_drop]. }
  unfold latex_to_unicode at 1.
  assert (Hrep : apply_replacements replacements t
                 = Py.replace t (u "\\&") (u "&")).
  { unfold apply_replacements, replacements. cbn [fold_left fst snd].
    rewrite !Habsent by (vm_compute; reflexivity). done. }
  rewrite Hrep. apply remove_braces_none.
  apply replace_forallb; [exact Hnb | vm_compute; reflexivity].
Qed.

Lemma kind_is_has_kind e kind : kind_is e kind = true ↔ has_kind e kind.
Proof.
  unfold kind_is, has_kind. destruct (e !! u "ENTRYTYPE") as [t|].
  - unfold Py.eqb. rewrite bool_decide_eq_true. split.
    + intros Hl. by exists t.
    + by intros (t' & [= <-] & Hl).
  - split; [done | by intros (t' & [=] & _)].
Qed.

Lemma fragment_inj (a c b d : str) :
  Ok (Some (a, b)) = Ok (Some (c, d)) → a = c ∧ b = d.
Proof. by intros [= -> ->]. Qed.

Lemma article_not_inproceedings :
  Py.eqb (u "article") (u "inproceedings") = false.
Proof. vm_compute. reflexivity. Qed.

(** The three ways a call of the formatter on a typed record can go. *)
Lemma format_publication_cases hl e html :
  is_Some (e !! u "ENTRYTYPE") →
  (has_kind e "article"
   ∧ ∃ line, format_publication hl e html = Ok (Some (u "journal", line)))
  ∨ (has_kind e "inproceedings"
     ∧ ∃ line, format_publication hl e html = Ok (Some (u "conference", line)))
  ∨ (kind_is e "article" = false ∧ kind_is e "inproceedings" = false
     ∧ format_publication hl e html = Ok None).
Proof.
  intros [t Ht].
  destruct (kind_is e "article") eqn:Ka.
  { left. apply kind_is_has_kind in Ka. split; [done|].
    destruct html; [rewrite article_web | rewrite article_tex]; eauto. }
  destruct (kind_is e "inproceedings") eqn:Kc.
  { right; left. apply kind_is_has_kind in Kc. split; [done|].
    destruct html; [rewrite inproceedings_web | rewrite inproceedings_tex];
      eauto. }
  right; right. split; [done|]. split; [done|].
  unfold kind_is in Ka, Kc. rewrite Ht in Ka, Kc.
  unfold format_publication, getitem. rewrite Ht. cbn [mbind result_bind].
  by rewrite Ka, Kc.
Qed.

Lemma format_publication_Some_inv hl e html cat line :
  format_publication hl e html = Ok (Some (cat, line)) →
  has_kind e "article" ∧ cat = u "journal"
  ∨ has_kind e "inproceedings" ∧ cat = u "conference".
Proof.
  intros H.
  assert (Hty : is_Some (e !! u "ENTRYTYPE")).
  { unfold format_publication, getitem in H.
    destruct (e !! u "ENTRYTYPE"); [eauto | done]. }
  destruct (format_publication_cases hl e html Hty)
    as [[Hk [l Hl]]|[[Hk [l Hl]]|(_ & _ & Hn)]]; rewrite H in *.
  - left. by apply fragment_inj in Hl as [-> _].
  - right. by apply fragment_inj in Hl as [-> _].
  - done.
Qed.

(** X2.  A web fragment holds no brace, as soon as the doi and the hal
    identifier or url, which are copied into the links as they are, hold
    none: authors, title and venue all pass through the normalization. *)
Theorem web_fragment_no_brace hl e cat line :
  format_publication hl e true = Ok (Some (cat, line)) →
  no_brace (field e "doi") = true →
  no_brace (hal_of e) = true →
  no_brace line = true.
Proof.
  intros Hf Hdoi Hhal.
  destruct (format_publication_Some_inv _ _ _ _ _ Hf) as [[Hk _]|[Hk _]].
  - rewrite (article_web hl e Hk) in Hf. apply fragment_inj in Hf as [_ <-].
    rewrite format_authors_names. cbn zeta.
    destruct (field e "doi") eqn:Ed, (hal_of e) eqn:Eh;
      rewrite !no_brace_app, ?latex_to_unicode_brace_free, ?Hdoi, ?Hhal;
      vm_compute; reflexivity.
  - rewrite (inproceedings_web hl e Hk) in Hf.
    apply fragment_inj in Hf as [_ <-].
    rewrite format_authors_names. cbn zeta.
    destruct (field e "doi") eqn:Ed, (hal_of e) eqn:Eh;
      rewrite !no_brace_app, ?latex_to_unicode_brace_free, ?Hdoi, ?Hhal;
      vm_compute; reflexivity.
Qed.

Lemma web_fragment_no_brace_witness :
  ∃ line, format_publication (u "Two") study true = Ok (Some (u "journal", line))
          ∧ no_brace line = true.
Proof.
  eexists. split; [vm_compute; reflexivity|].
  refine (web_fragment_no_brace (u "Two") study (u "journal") _ _ _ _);
    vm_compute; reflexivity.
Defined.

(** ** The kind of a record *)

Lemma has_kind_insert_type e t kind :
  has_kind (<[u "ENTRYTYPE" := t]> e) kind ↔ Py.lower t = u kind.
Proof.
  unfold has_kind. rewrite lookup_insert_eq. split.
  - by intros (t' & [= <-] & H).
  - intros H. by exists t.
Qed.

Lemma field_insert_ne e k v name :
  k ≠ u name → field (<[k := v]> e) name = field e name.
Proof. intros Hne. unfold field, get. by rewrite lookup_insert_ne. Qed.

Lemma has_kind_insert_ne e k v kind :
  k ≠ u "ENTRYTYPE" → has_kind (<[k := v]> e) kind ↔ has_kind e kind.
Proof. intros Hne. unfold has_kind. by rewrite lookup_insert_ne. Qed.

Ltac other_key := let H := fresh in intros H; vm_compute in H; discriminate H.

Ltac same_fields :=
  unfold journal_details, conference_details, hal_of;
  rewrite !field_insert_ne by other_key; reflexivity.

(** X3.  The entry type is read without regard to case: two spellings of
    the type with the same lower-case form give the same result, in either
    dialect. *)
Theorem format_publication_type_case hl e t t' html :
  Py.lower t = Py.lower t' →
  format_publication hl (<[u "ENTRYTYPE" := t]> e) html
  = format_publication hl (<[u "ENTRYTYPE" := t']> e) html.
Proof.
  intros Hl.
  set (e1 := <[u "ENTRYTYPE" := t]> e). set (e2 := <[u "ENTRYTYPE" := t']> e).
  assert (H1 : is_Some (e1 !! u "ENTRYTYPE"))
    by (unfold e1; rewrite lookup_insert_eq; eauto).
  assert (Hk : ∀ kind, has_kind e1 kind ↔ has_kind e2 kind).
  { intros kind. unfold e1, e2. rewrite !has_kind_insert_type. by rewrite Hl. }
  assert (Hki : ∀ kind, kind_is e1 kind = kind_is e2 kind).
  { intros kind. apply eq_true_iff_eq. rewrite !kind_is_has_kind. apply Hk. }
  destruct (format_publication_cases hl e1 html H1)
    as [[Ha _]|[[Hc _]|(Ka & Kc & Hn)]].
  - pose proof (proj1 (Hk _) Ha) as Ha'.
    destruct html.
    + rewrite (article_web hl e1 Ha), (article_web hl e2 Ha').
      unfold e1, e2. same_fields.
    + rewrite (article_tex hl e1 Ha), (article_tex hl e2 Ha').
      unfold e1, e2. same_fields.
  - pose proof (proj1 (Hk _) Hc) as Hc'.
    destruct html.
    + rewrite (inproceedings_web hl e1 Hc), (inproceedings_web hl e2 Hc').
      unfold e1, e2. same_fields.
    + rewrite (inproceedings_tex hl e1 Hc), (inproceedings_tex hl e2 Hc').
      unfold e1, e2. same_fields.
  - rewrite Hn. rewrite Hki in Ka, Kc.
    assert (H2 : is_Some (e2 !! u "ENTRYTYPE"))
      by (unfold e2; rewrite lookup_insert_eq; eauto).
    destruct (format_publication_cases hl e2 html H2)
      as [[Ha _]|[[Hc _]|(_ & _ & Hn2)]].
    + apply kind_is_has_kind in Ha. congruence.
    + apply kind_is_has_kind in Hc. congruence.
    + by rewrite Hn2.
Qed.

Lemma format_publication_type_case_witness :
  format_publication (u "Two") (<[u "ENTRYTYPE" := u "ARTICLE"]> study) true
  = format_publication (u "Two") (<[u "ENTRYTYPE" := u "Article"]> study) true.
Proof.
  apply format_publication_type_case. vm_compute. reflexivity.
Defined.

(** X4.  The structured fragment of a journal article never shows the hal
    identifier or the url: setting or changing either field leaves it as it
    was. *)
Theorem structured_journal_ignores_hal hl e h w :
  has_kind e "article" →
  format_publication hl (<[u "hal_id" := h]> (<[u "url" := w]> e)) false
  = format_publication hl e false.
Proof.
  intros Hk.
  assert (Hk' : has_kind (<[u "hal_id" := h]> (<[u "url" := w]> e)) "article").
  { apply has_kind_insert_ne; [other_key|].
    apply has_kind_insert_ne; [other_key|]. done. }
  rewrite (article_tex hl _ Hk'), (article_tex hl e Hk). same_fields.
Qed.

Lemma structured_journal_ignores_hal_witness :
  format_publication (u "Two")
    (<[u "hal_id" := u "hal-01"]> (<[u "url" := u "https://x.org"]> study)) false
  = format_publication (u "Two") study false.
Proof.
  apply structured_journal_ignores_hal.
  exists (u "article"). split; vm_compute; reflexivity.
Defined.

(** X5.  The category of a record depends on its kind alone and is the same
    in both dialects: "journal" exactly for articles, "conference" exactly
    for conference papers, and for every other kind both calls return the
    pair of nothing. *)
Theorem category_same_in_both_dialects hl e :
  is_Some (e !! u "ENTRYTYPE") →
  ∃ r_tex r_web,
    format_publication hl e false = Ok r_tex ∧
    format_publication hl e true = Ok r_web ∧
    fst <$> r_tex = fst <$> r_web ∧
    (fst <$> r_tex = Some (u "journal") ↔ has_kind e "article") ∧
    (fst <$> r_tex = Some (u "conference") ↔ has_kind e "inproceedings") ∧
    (r_tex = None ↔ ¬ has_kind e "article" ∧ ¬ has_kind e "inproceedings").
Proof.
  intros Hty.
  assert (Hexcl : has_kind e "article" → has_kind e "inproceedings" → False).
  { intros (t & Ht & Hl) (t' & Ht' & Hl'). rewrite Ht in Ht'.
    injection Ht' as <-. rewrite Hl in Hl'.
    pose proof article_not_inproceedings as Hne. unfold Py.eqb in Hne.
    by apply bool_decide_eq_false in Hne. }
  assert (Hjc : u "journal" ≠ u "conference").
  { pose proof journal_not_conference as Hne. unfold Py.eqb in Hne.
    by apply bool_decide_eq_false in Hne. }
  destruct (format_publication_cases hl e false Hty)
    as [[Ha [l0 H0]]|[[Hc [l0 H0]]|(Ka & Kc & H0)]].
  - rewrite H0, (article_web hl e Ha). eexists _, _.
    cbn [fmap option_fmap option_map fst].
    split_and!; try done;
      (split; [intros [= ?] | intros ?]; try done; try congruence;
       try (exfalso; by eauto); tauto).
  - rewrite H0, (inproceedings_web hl e Hc). eexists _, _.
    cbn [fmap option_fmap option_map fst].
    split_and!; try done;
      (split; [intros [= ?] | intros ?]; try done; try congruence;
       try (exfalso; by eauto); tauto).
  - destruct (format_publication_cases hl e true Hty)
      as [[Ha _]|[[Hc _]|(_ & _ & H1)]].
    + apply kind_is_has_kind in Ha. congruence.
    + apply kind_is_has_kind in Hc. congruence.
    + rewrite H0, H1. exists None, None.
      assert (Hna : ¬ has_kind e "article")
        by (intros ?%kind_is_has_kind; congruence).
      assert (Hnc : ¬ has_kind e "inproceedings")
        by (intros ?%kind_is_has_kind; congruence).
      cbn [fmap option_fmap option_map fst].
      split_and!; try done;
      (split; [intros [= ?] | intros ?]; try done; try congruence;
       try (exfalso; by eauto); tauto).
Qed.

Lemma category_same_in_both_dialects_witness :
  ∃ r_tex r_web,
    format_publication (u "Two") thesis false = Ok r_tex ∧
    format_publication (u "Two") thesis true = Ok r_web ∧
    fst <$> r_tex = fst <$> r_web ∧
    (fst <$> r_tex = Some (u "journal") ↔ has_kind thesis "article") ∧
    (fst <$> r_tex = Some (u "conference") ↔ has_kind thesis "inproceedings") ∧
    (r_tex = None ↔ ¬ has_kind thesis "article" ∧ ¬ has_kind thesis "inproceedings").
Proof.
  apply (category_same_in_both_dialects (u "Two") thesis).
  apply (bool_decide_unpack _). vm_compute. exact I.
Defined.

(** ** The publication buckets *)

Lemma pub_step_untyped hl b e :
  e !! u "ENTRYTYPE" = None →
  pub_step hl b e = Raise (KeyError (u "ENTRYTYPE")).
Proof.
  intros He. unfold pub_step, format_publication, getitem. by rewrite He.
Qed.

Lemma pub_loop_untyped hl es b e :
  e ∈ es → e !! u "ENTRYTYPE" = None →
  pub_loop hl b es = Raise (KeyError (u "ENTRYTYPE")).
Proof.
  intros Hin He. revert b. induction es as [|x es IH]; intros b.
  - by apply elem_of_nil in Hin.
  - cbn [pub_loop].
    destruct (x !! u "ENTRYTYPE") as [t|] eqn:Hx.
    + rewrite pub_step_lines by eauto. cbn [mbind result_bind].
      apply IH. apply elem_of_cons in Hin as [->|Hin]; [congruence | done].
    + by rewrite pub_step_untyped.
Qed.

(** X6.  A single record without an entry type aborts the whole run over
    the publications with the KeyError of that field, wherever the record
    stands and whatever the other records are. *)
Theorem publications_untyped_record hl es e :
  e ∈ es → e !! u "ENTRYTYPE" = None →
  publications hl es = Raise (KeyError (u "ENTRYTYPE")).
Proof.
  intros Hin He. unfold publications.
  apply (pub_loop_untyped hl _ _ e); [|done].
  by rewrite (sort_reverse_perm year_key es).
Qed.

Lemma publications_untyped_record_witness :
  publications (u "Two") [study; no_type; dated]
  = Raise (KeyError (u "ENTRYTYPE")).
Proof.
  apply (publications_untyped_record _ _ no_type).
  - apply (bool_decide_unpack _). vm_compute. exact I.
  - vm_compute. reflexivity.
Defined.

Lemma pub_line_journal hl html e :
  is_Some (e !! u "ENTRYTYPE") →
  length (pub_line hl html (u "journal") e)
  = if kind_is e "article" then 1 else 0.
Proof.
  intros Hty. unfold pub_line.
  destruct (format_publication_cases hl e html Hty)
    as [[Ha [l ->]]|[[Hc [l ->]]|(Ka & Kc & ->)]].
  - rewrite eqb_refl. apply kind_is_has_kind in Ha. by rewrite Ha.
  - replace (Py.eqb (u "conference") (u "journal")) with false
      by (vm_compute; reflexivity).
    destruct (kind_is e "article") eqn:Ka; [|done].
    apply kind_is_has_kind in Ka.
    destruct Ka as (t & Ht & Hl), Hc as (t' & Ht' & Hl').
    rewrite Ht in Ht'. injection Ht' as <-. rewrite Hl in Hl'.
    pose proof article_not_inproceedings as Hne. unfold Py.eqb in Hne.
    by apply bool_decide_eq_false in Hne.
  - by rewrite Ka.
Qed.

Lemma pub_line_conference hl html e :
  is_Some (e !! u "ENTRYTYPE") →
  length (pub_line hl html (u "conference") e)
  = if kind_is e "inproceedings" then 1 else 0.
Proof.
  intros Hty. unfold pub_line.
  destruct (format_publication_cases hl e html Hty)
    as [[Ha [l ->]]|[[Hc [l ->]]|(Ka & Kc & ->)]].
  - rewrite journal_not_conference.
    destruct (kind_is e "inproceedings") eqn:Kc; [|done].
    apply kind_is_has_kind in Kc.
    destruct Kc as (t & Ht & Hl), Ha as (t' & Ht' & Hl').
    rewrite Ht in Ht'. injection Ht' as <-. rewrite Hl in Hl'.
    pose proof article_not_inproceedings as Hne. unfold Py.eqb in Hne.
    apply bool_decide_eq_false in Hne. congruence.
  - rewrite eqb_refl. apply kind_is_has_kind in Hc. by rewrite Hc.
  - by rewrite Kc.
Qed.

Lemma pub_lines_length hl html cat kind es :
  (∀ e, is_Some (e !! u "ENTRYTYPE") →
        length (pub_line hl html cat e) = if kind_is e kind then 1 else 0) →
  (∀ e, e ∈ es → is_Some (e !! u "ENTRYTYPE")) →
  length (pub_lines hl html cat es)
  = length (filter (fun e => kind_is e kind = true) es).
Proof.
  intros Hline Hes. induction es as [|e es IH]; [done|].
  rewrite pub_lines_cons, pub_lines_single, length_app.
  rewrite Hline by (apply Hes; by left).
  rewrite IH by (intros; apply Hes; by right).
  destruct (kind_is e kind) eqn:K.
  - by rewrite filter_cons_True.
  - rewrite filter_cons_False; [done | congruence].
Qed.

(** X7.  When every record has an entry type the run succeeds, each journal
    bucket holds exactly one line per article and each conference bucket
    one line per conference paper, in the structured and in the web dialect
    alike; records of any other kind add no line. *)
Theorem publications_bucket_sizes hl es :
  (∀ e, e ∈ es → is_Some (e !! u "ENTRYTYPE")) →
  ∃ b, publications hl es = Ok b ∧
    let articles := length (filter (fun e => kind_is e "article" = true) es) in
    let papers :=
      length (filter (fun e => kind_is e "inproceedings" = true) es) in
    length (journal_tex_entries b) = articles ∧
    length (journal_html_entries b) = articles ∧
    length (conf_tex_entries b) = papers ∧
    length (conf_html_entries b) = papers.
Proof.
  intros Hes. unfold publications.
  assert (Hs : ∀ e, e ∈ sort_reverse year_key es → is_Some (e !! u "ENTRYTYPE")).
  { intros e He. apply Hes. by rewrite <- (sort_reverse_perm year_key es). }
  rewrite pub_loop_lines by done. eexists. split; [done|].
  cbn [journal_tex_entries conf_tex_entries journal_html_entries
       conf_html_entries no_pubs app].
  assert (Hlen : ∀ kind,
    length (filter (fun e => kind_is e kind = true) es)
    = length (filter (fun e => kind_is e kind = true)
                (sort_reverse year_key es))).
  { intros kind. apply Permutation_length.
    by rewrite (sort_reverse_perm year_key es). }
  rewrite !Hlen.
  rewrite !(pub_lines_length hl _ (u "journal") "article")
    by (done || apply pub_line_journal).
  rewrite !(pub_lines_length hl _ (u "conference") "inproceedings")
    by (done || apply pub_line_conference).
  done.
Qed.

Lemma publications_bucket_sizes_witness :
  ∃ b, publications (u "Two") [study; thesis; bare_conference; dated] = Ok b ∧
    length (journal_tex_entries b) = 2 ∧
    length (journal_html_entries b) = 2 ∧
    length (conf_tex_entries b) = 1 ∧
    length (conf_html_entries b) = 1.
Proof.
  refine (publications_bucket_sizes (u "Two")
            [study; thesis; bare_conference; dated] _).
  intros e He. apply (bool_decide_unpack _).
  repeat (apply elem_of_cons in He as [->|He]; [vm_compute; exact I|]).
  by apply elem_of_nil in He.
Defined.

Lemma publications_typed hl es b :
  publications hl es = Ok b → ∀ e, e ∈ es → is_Some (e !! u "ENTRYTYPE").
Proof.
  intros Hb e He. destruct (e !! u "ENTRYTYPE") eqn:E; [eauto|].
  unfold publications in Hb.
  rewrite (pub_loop_untyped hl _ _ e) in Hb; [done| |done].
  by rewrite (sort_reverse_perm year_key es).
Qed.

Lemma elem_of_pub_line hl html cat e x :
  x ∈ pub_line hl html cat e ↔
  ∃ line, format_publication hl e html = Ok (Some (cat, line))
          ∧ x = shown html line.
Proof.
  unfold pub_line.
  destruct (format_publication hl e html) as [[[c line]|]|err].
  - unfold Py.eqb. case_bool_decide as Hc.
    + subst c. rewrite list_elem_of_singleton. split.
      * intros ->. by exists line.
      * by intros (line' & [= <-] & ->).
    + rewrite elem_of_nil. split; [done|].
      intros (line' & [= Hc' _] & _). done.
  - rewrite elem_of_nil. split; [done | by intros (? & [=] & _)].
  - rewrite elem_of_nil. split; [done | by intros (? & [=] & _)].
Qed.

Lemma elem_of_pub_lines hl html cat es x :
  x ∈ pub_lines hl html cat es ↔
  ∃ e line, e ∈ es ∧ format_publication hl e html = Ok (Some (cat, line))
            ∧ x = shown html line.
Proof.
  unfold pub_lines. rewrite list_elem_of_In, in_flat_map. split.
  - intros (e & He%list_elem_of_In & Hx%list_elem_of_In%elem_of_pub_line).
    destruct Hx as (line & Hf & ->). by exists e, line.
  - intros (e & line & He & Hf & ->). exists e.
    split; [by apply list_elem_of_In|].
    apply list_elem_of_In, elem_of_pub_line. by exists line.
Qed.

Lemma elem_of_pub_bucket hl es b html cat x :
  publications hl es = Ok b →
  x ∈ pub_bucket b html cat ↔
  ∃ e line, e ∈ es ∧ format_publication hl e html = Ok (Some (cat, line))
            ∧ x = shown html line.
Proof.
  intros Hb. pose proof (publications_typed hl es b Hb) as Hty.
  unfold publications in Hb. rewrite pub_loop_lines in Hb; cycle 1.
  { intros e He. apply Hty. by rewrite <- (sort_reverse_perm year_key es). }
  injection Hb as <-.
  assert (Hperm : ∀ html cat,
    x ∈ pub_lines hl html cat (sort_reverse year_key es) ↔
    ∃ e line, e ∈ es ∧ format_publication hl e html = Ok (Some (cat, line))
              ∧ x = shown html line).
  { intros h c. rewrite elem_of_pub_lines.
    by setoid_rewrite (sort_reverse_perm year_key es). }
  unfold pub_bucket. cbn [journal_tex_entries conf_tex_entries
    journal_html_entries conf_html_entries no_pubs app].
  unfold Py.eqb. case_bool_decide as Hj; [subst cat; by destruct html|].
  case_bool_decide as Hc; [subst cat; by destruct html|].
  rewrite elem_of_nil. split; [done|].
  intros (e & line & _ & Hf & _).
  by destruct (format_publication_Some_inv _ _ _ _ _ Hf) as [[_ ?]|[_ ?]].
Qed.

(** X8.  After a successful run a bucket holds the fragments of the records
    of its category and nothing else: a line is in the bucket of a dialect
    and category exactly when it is the fragment, as stored in that dialect,
    of some record of the bibliography that the formatter places in that
    category. *)
Theorem publications_bucket_members hl es b html cat x :
  publications hl es = Ok b →
  x ∈ pub_bucket b html cat ↔
  ∃ e line, e ∈ es ∧ format_publication hl e html = Ok (Some (cat, line))
            ∧ x = shown html line.
Proof. apply elem_of_pub_bucket. Qed.

Lemma publications_bucket_members_witness :
  ∃ b, publications (u "Two") [thesis; dated] = Ok b ∧
       ∀ x, x ∈ pub_bucket b false (u "journal") ↔
            ∃ e line, e ∈ [thesis; dated]
              ∧ format_publication (u "Two") e false = Ok (Some (u "journal", line))
              ∧ x = shown false line.
Proof.
  eexists. split; [vm_compute; reflexivity|]. intros x.
  apply (publications_bucket_members (u "Two") [thesis; dated]).
  vm_compute. reflexivity.
Defined.

(** X9.  After a successful run every line of a structured bucket is a list
    item, starting with the item marker, and every line of a web bucket is
    enclosed in list-item tags. *)
Theorem publications_lines_are_items hl es b cat x :
  publications hl es = Ok b →
  (x ∈ pub_bucket b false cat → ∃ rest, x = u "\item " ++ rest)
  ∧ (x ∈ pub_bucket b true cat → ∃ body, x = u "<li>" ++ body ++ u "</li>").
Proof.
  intros Hb. split.
  - intros (e & line & _ & Hf & ->)%(elem_of_pub_bucket hl es b); [|done].
    cbn [shown].
    destruct (format_publication_Some_inv _ _ _ _ _ Hf) as [[Hk _]|[Hk _]].
    + rewrite (article_tex hl e Hk) in Hf.
      apply fragment_inj in Hf as [_ <-]. eauto.
    + rewrite (inproceedings_tex hl e Hk) in Hf.
      apply fragment_inj in Hf as [_ <-]. eauto.
  - intros (e & line & _ & _ & ->)%(elem_of_pub_bucket hl es b); [|done].
    by exists line.
Qed.

Lemma publications_lines_are_items_witness :
  ∃ b, publications (u "Two") [study; bare_conference] = Ok b ∧
       ∀ x, (x ∈ pub_bucket b false (u "journal") → ∃ rest, x = u "\item " ++ rest)
            ∧ (x ∈ pub_bucket b true (u "journal")
               → ∃ body, x = u "<li>" ++ body ++ u "</li>").
Proof.
  eexists. split; [vm_compute; reflexivity|]. intros x.
  apply (publications_lines_are_items (u "Two") [study; bare_conference]).
  vm_compute. reflexivity.
Defined.

(** ** The sort *)

Lemma insert_desc_filter (key : entry → str) k x l :
  filter (fun e => key e = k) (insert_desc key x l)
  = filter (fun e => key e = k) (x :: l).
Proof.
  induction l as [|y l IH]; [done|].
  cbn [insert_desc]. destruct (Py.ltb (key x) (key y)) eqn:E; [|done].
  assert (Hne : key x ≠ key y).
  { intros Heq. rewrite Heq, ltb_irrefl in E. done. }
  rewrite (filter_cons _ y (insert_desc key x l)), IH.
  rewrite (filter_cons _ x (y :: l)), (filter_cons _ x l), (filter_cons _ y l).
  repeat case_decide; congruence.
Qed.

Lemma insert_desc_filter_all (key : entry → str) k l :
  filter (fun e => key e = k) (sort_reverse key l)
  = filter (fun e => key e = k) l.
Proof.
  induction l as [|x l IH]; [done|].
  cbn [sort_reverse foldr]. fold (sort_reverse key l).
  by rewrite insert_desc_filter, !filter_cons, IH.
Qed.

(** X10.  The sort loses and adds no record, leaves the records in
    non-increasing order of their keys, and is stable: the records sharing a
    key stand in the order they had before. *)
Theorem sort_reverse_stable (key : entry → str) l :
  sort_reverse key l ≡ₚ l
  ∧ StronglySorted (not_below key) (sort_reverse key l)
  ∧ ∀ k, filter (fun e => key e = k) (sort_reverse key l)
         = filter (fun e => key e = k) l.
Proof.
  split; [apply sort_reverse_perm|]. split; [apply sort_reverse_sorted|].
  intros k. induction l as [|x l IH]; [done|].
  cbn [sort_reverse foldr]. fold (sort_reverse key l).
  rewrite insert_desc_filter, !filter_cons, IH. done.
Qed.

(** ** Talks *)

Lemma format_talk_category e html :
  (format_talk e html).1 = get e (u "type") (u "other").
Proof. reflexivity. Qed.

Lemma talk_lines_filter html conf es :
  talk_lines html conf es
  = map (fun e => shown html (format_talk e html).2)
        (filter (fun e => is_conference_talk e = conf) es).
Proof.
  induction es as [|e es IH]; [done|].
  rewrite talk_lines_cons, talk_lines_single, IH, filter_cons.
  assert (Hline : talk_line html conf e
                  = if Bool.eqb (is_conference_talk e) conf
                    then [shown html (format_talk e html).2] else []).
  { unfold talk_line, is_conference_talk.
    pose proof (format_talk_category e html) as Hc.
    destruct (format_talk e html) as [c line]. cbn [fst snd] in *. by subst c. }
  rewrite Hline.
  destruct (is_conference_talk e), conf; cbn [Bool.eqb]; by case_decide.
Qed.

(** X11.  Every talk is filed exactly once in each dialect, and where its
    type says: the conference buckets hold the lines of the talks whose type
    field is "conference", the other buckets the lines of all the other
    talks, a talk without type field included, each bucket in the sorted
    order of its talks; so the two buckets of a dialect together have as
    many lines as there are talks. *)
Theorem talks_buckets_filed es :
  let b := talks es in
  let sorted := sort_reverse year_key es in
  let conference := filter (fun e => is_conference_talk e = true) sorted in
  let other := filter (fun e => is_conference_talk e = false) sorted in
  conf_talks_tex b = map (fun e => (format_talk e false).2) conference ∧
  other_talks_tex b = map (fun e => (format_talk e false).2) other ∧
  conf_talks_html b = map (fun e => li (format_talk e true).2) conference ∧
  other_talks_html b = map (fun e => li (format_talk e true).2) other ∧
  length conference + length other = length es.
Proof.
  intros b sorted conference other. unfold b, talks. rewrite talk_loop_lines.
  cbn [conf_talks_tex other_talks_tex conf_talks_html other_talks_html
       no_talks app].
  rewrite !talk_lines_filter. split_and!; try done.
  rewrite <- (Permutation_length (sort_reverse_perm year_key es)).
  unfold conference, other. fold sorted. clear.
  induction sorted as [|e l IH]; [done|].
  rewrite !filter_cons. destruct (is_conference_talk e);
    repeat case_decide; try done; cbn [length]; lia.
Qed.

Ltac split_talk :=
  unfold format_talk, talk_details, field; cbn [fst snd];
  repeat match goal with
         | |- context [truthy (get ?e ?k ?d)] =>
             destruct (get e k d) eqn:?; cbn [truthy]
         end;
  rewrite <- ?app_assoc, ?app_nil_r; try reflexivity.

(** X12.  The two renderings of a talk carry the same text: both hold the
    title, a comma and the venue followed by a full stop, character for
    character, the web one without any accent normalization.  They share
    the category and differ only in the item marker in front and in the link
    that follows when the talk has a url. *)
Theorem talk_renderings_agree e :
  let body := field e "title" ++ u ", " ++ talk_details e ++ u "." in
  (format_talk e false).1 = (format_talk e true).1
  ∧ (format_talk e false).2
    = u "\item " ++ body
        ++ match field e "url" with
           | [] => []
           | url => u " \url{" ++ url ++ u "}"
           end
  ∧ (format_talk e true).2
    = body
        ++ match field e "url" with
           | [] => []
           | url => u " <a href=" ++ dquote ++ url ++ dquote ++ u " style="
                      ++ dquote ++ u "text-decoration:none" ++ dquote ++ u ">"
                      ++ arrow_emoji ++ u "</a>"
           end.
Proof.
  intros body. unfold body. split; [reflexivity|]. split; split_talk.
Qed.

(** ** Splicing several regions *)

Lemma splice_located pre B old E rest C :
  let text := pre ++ B ++ old ++ E ++ rest in
  Py.find text B = Z.of_nat (length pre) →
  Py.find_from text E (Z.of_nat (length pre))
  = Z.of_nat (length pre + length B + length old) →
  replace_between_markers text B E C
  = Ok (pre ++ B ++ nl ++ C ++ nl ++ E ++ rest).
Proof.
  intros text HB HE. unfold replace_between_markers. rewrite HB, HE.
  destruct (Z.eqb_spec (Z.of_nat (length pre)) (-1)); [lia|].
  destruct (Z.eqb_spec (Z.of_nat (length pre + length B + length old)) (-1));
    [lia|].
  cbn [orb]. rewrite <- Nat2Z.inj_add, slice_to_nat, slice_from_nat.
  f_equal.
  assert (Ht : take (length pre + length B) text = pre ++ B).
  { unfold text. rewrite (app_assoc pre B).
    apply take_app_length'. rewrite length_app. lia. }
  assert (Hd : drop (length pre + length B + length old) text = E ++ rest).
  { unfold text.
    replace (pre ++ B ++ old ++ E ++ rest)
      with ((pre ++ B ++ old) ++ E ++ rest) by (by rewrite <- !app_assoc).
    apply drop_app_length'. rewrite !length_app. lia. }
  rewrite Ht, Hd. by rewrite <- !app_assoc.
Qed.

Lemma splice_all_located pre rs :
  regions_located pre rs →
  splice_all (pre ++ render_old rs) rs = Ok (pre ++ render_new rs).
Proof.
  revert pre. induction rs as [|r rs IH]; intros pre; [done|].
  cbn [regions_located render_old render_new splice_all].
  intros (HB & HE & Hrest).
  rewrite splice_located by done. cbn [mbind result_bind].
  specialize (IH _ Hrest). rewrite <- !app_assoc in IH. exact IH.
Qed.

(** X13.  Splices compose region by region.  When a text is a run of
    marker-delimited regions and, at each stage, the splicer's two searches
    land on the markers of the region being updated, splicing the regions
    one after the other replaces the content of each by its new content,
    between two newlines, and leaves the markers and all text outside the
    regions as they were. *)
Theorem splice_all_regions pre rs :
  regions_located pre rs →
  splice_all (pre ++ render_old rs) rs = Ok (pre ++ render_new rs).
Proof. apply splice_all_located. Qed.

Lemma splice_all_regions_witness :
  splice_all
    (u "a" ++ render_old
       [Region (u "[B1]") (u "[E1]") (u "old") (u "new") (u " mid ");
        Region (u "[B2]") (u "[E2]") (u "") (u "[B1]") (u " z")])
    [Region (u "[B1]") (u "[E1]") (u "old") (u "new") (u " mid ");
     Region (u "[B2]") (u "[E2]") (u "") (u "[B1]") (u " z")]
  = Ok (u "a" ++ render_new
       [Region (u "[B1]") (u "[E1]") (u "old") (u "new") (u " mid ");
        Region (u "[B2]") (u "[E2]") (u "") (u "[B1]") (u " z")]).
Proof.
  apply splice_all_regions.
  cbn [regions_located]. split_and!; vm_compute; reflexivity.
Defined.

Lemma bind_ret {A} (m : result A) : (x ← m; mret x) = m.
Proof. by destruct m. Qed.

Lemma update_html_splice_all html p t o1 a1 o2 a2 o3 a3 o4 a4 :
  update_html html p t
  = splice_all html (html_regions p t o1 a1 o2 a2 o3 a3 o4 a4).
Proof.
  unfold update_html, html_regions.
  cbn [splice_all r_begin r_end r_new].
  destruct (replace_between_markers html _ _ _) as [h1|]; [|done].
  cbn [mbind result_bind].
  destruct (replace_between_markers h1 _ _ _) as [h2|]; [|done].
  cbn [mbind result_bind].
  destruct (replace_between_markers h2 _ _ _) as [h3|]; [|done].
  cbn [mbind result_bind].
  by destruct (replace_between_markers h3 _ _ _).
Qed.

Lemma update_cv_splice_all cv p t o1 a1 o2 a2 o3 a3 o4 a4 :
  update_cv cv p t
  = splice_all cv (cv_regions p t o1 a1 o2 a2 o3 a3 o4 a4).
Proof.
  unfold update_cv, cv_regions.
  cbn [splice_all r_begin r_end r_new].
  destruct (replace_between_markers cv _ _ _) as [h1|]; [|done].
  cbn [mbind result_bind].
  destruct (replace_between_markers h1 _ _ _) as [h2|]; [|done].
  cbn [mbind result_bind].
  destruct (replace_between_markers h2 _ _ _) as [h3|]; [|done].
  cbn [mbind result_bind].
  by destruct (replace_between_markers h3 _ _ _).
Qed.

(** X14.  The update of the web page.  For a page made of the four regions
    in the order journals, conferences, conference talks, other talks, on
    which each search lands on the region's own markers, the update puts the
    joined lines of the matching bucket into each region and changes nothing
    else. *)
Theorem update_html_regions pre p t o1 a1 o2 a2 o3 a3 o4 a4 :
  let rs := html_regions p t o1 a1 o2 a2 o3 a3 o4 a4 in
  regions_located pre rs →
  update_html (pre ++ render_old rs) p t = Ok (pre ++ render_new rs).
Proof.
  intros rs Hloc. unfold rs.
  rewrite (update_html_splice_all _ p t o1 a1 o2 a2 o3 a3 o4 a4).
  by apply splice_all_located.
Qed.

Lemma update_html_regions_witness :
  let rs := html_regions sample_pubs sample_talks
              (u "old") (u "<h2>C</h2>") (u "") (u "<h2>T</h2>")
              (u " ") (u "<h2>O</h2>") (u "x") (u "</body>") in
  update_html (u "<body>" ++ render_old rs) sample_pubs sample_talks
  = Ok (u "<body>" ++ render_new rs).
Proof.
  apply (update_html_regions (u "<body>")).
  cbn [regions_located html_regions]. split_and!; vm_compute; reflexivity.
Defined.

(** X15.  The update of a CV source, likewise: each of the four regions
    receives its bucket as an enumerate or itemize environment, one line per
    entry, and the rest of the source is unchanged. *)
Theorem update_cv_regions pre p t o1 a1 o2 a2 o3 a3 o4 a4 :
  let rs := cv_regions p t o1 a1 o2 a2 o3 a3 o4 a4 in
  regions_located pre rs →
  update_cv (pre ++ render_old rs) p t = Ok (pre ++ render_new rs).
Proof.
  intros rs Hloc. unfold rs.
  rewrite (update_cv_splice_all _ p t o1 a1 o2 a2 o3 a3 o4 a4).
  by apply splice_all_located.
Qed.

Lemma update_cv_regions_witness :
  let rs := cv_regions sample_pubs sample_talks
              (u "old") (u "\section{C}") (u "") (u "\section{T}")
              (u " ") (u "\section{O}") (u "x") (u "\end{document}") in
  update_cv (u "\begin{document}" ++ render_old rs) sample_pubs sample_talks
  = Ok (u "\begin{document}" ++ render_new rs).
Proof.
  apply (update_cv_regions (u "\begin{document}")).
  cbn [regions_located cv_regions]. split_and!; vm_compute; reflexivity.
Defined.



(** ** Splitting and joining the authors *)

Lemma join_cons_head sep c h t :
  Py.join sep ((c :: h) :: t) = c :: Py.join sep (h :: t).
Proof. by destruct t. Qed.

Lemma split_go_not_nil sep k s : Py.split_go sep k s ≠ [].
Proof.
  revert k. induction s as [|c s IH]; intros k; [done|].
  cbn [Py.split_go]. destruct k; [|apply IH].
  destruct (Py.starts_with sep (c :: s)); [done|].
  by destruct (Py.split_go sep 0 s).
Qed.

Lemma join_split_go sep new k s :
  Py.join new (Py.split_go sep k s) = Py.replace_go sep new k s.
Proof.
  revert k. induction s as [|c s IH]; intros k; [done|].
  cbn [Py.split_go Py.replace_go]. destruct k as [|k]; [|apply IH].
  destruct (Py.starts_with sep (c :: s)).
  - rewrite <- IH.
    pose proof (split_go_not_nil sep (length sep - 1) s) as Hne.
    by destruct (Py.split_go sep (length sep - 1) s).
  - rewrite <- IH.
    pose proof (split_go_not_nil sep 0 s) as Hne.
    destruct (Py.split_go sep 0 s) as [|h t]; [done|].
    apply join_cons_head.
Qed.

Lemma join_split s sep new :
  sep ≠ [] → Py.join new (Py.split s sep) = Py.replace s sep new.
Proof.
  intros Hsep. unfold Py.split, Py.replace. destruct sep; [done|].
  apply join_split_go.
Qed.

(** X17.  When no author name carries outer white space or contains the
    highlighted name, the structured author list is the author field with
    its newlines turned into spaces and every " and " turned into ", ":
    splitting on one separator and joining with another is a replacement. *)
Theorem format_authors_plain hl raw :
  Forall (fun a => Py.strip a = a ∧ Py.contains hl a = false)
         (Py.split (Py.replace raw nl (u " ")) (u " and ")) →
  format_authors hl raw false
  = Py.replace (Py.replace raw nl (u " ")) (u " and ") (u ", ").
Proof.
  intros Hnames. unfold format_authors.
  rewrite <- (join_split (Py.replace raw nl (u " ")) (u " and ") (u ", "))
    by (vm_compute; discriminate).
  f_equal. induction Hnames as [|a l [Hs Hc] _ IH]; [done|].
  cbn [map]. rewrite IH. unfold emphasize. by rewrite Hs, Hc.
Qed.

Lemma format_authors_plain_witness :
  format_authors (u "Boukraa") (u "A. One and" ++ nl ++ u "B. Two and C. Three") false
  = Py.replace (Py.replace (u "A. One and" ++ nl ++ u "B. Two and C. Three")
                  nl (u " ")) (u " and ") (u ", ").
Proof.
  apply format_authors_plain.
  repeat (apply Forall_cons; split; [split; vm_compute; reflexivity|]).
  apply Forall_nil. done.
Defined.

(** ** Shortening a url *)

Lemma replace_go_skip old new p s :
  Py.replace_go old new (length p) (p ++ s) = Py.replace_go old new 0 s.
Proof. induction p as [|c p IH]; [done | exact IH]. Qed.

Lemma replace_prefix old new s :
  old ≠ [] → Py.replace (old ++ s) old new = new ++ Py.replace s old new.
Proof.
  destruct old as [|a old]; [done|]. intros _. unfold Py.replace.
  change ((a :: old) ++ s) with (a :: (old ++ s)). cbn [Py.replace_go].
  change (a :: (old ++ s)) with ((a :: old) ++ s). rewrite starts_with_app.
  cbn [length]. rewrite Nat.sub_1_r. cbn [Nat.pred].
  by rewrite replace_go_skip.
Qed.

Lemma occurs_at_prefix s a b k : occurs_at s (a ++ b) k → occurs_at s a k.
Proof.
  intros [Hk H]. split; [done|].
  apply (f_equal (take (length a))) in H.
  rewrite take_take, length_app, take_app_length in H.
  by replace (length a `min` (length a + length b)) with (length a) in H by lia.
Qed.

Lemma contains_longer a b s :
  Py.contains a s = false → Py.contains (a ++ b) s = false.
Proof.
  unfold Py.contains. intros Ha.
  destruct (Py.find_nat s (a ++ b)) as [k|] eqn:E; [|done].
  apply find_nat_Some in E as [E%occurs_at_prefix _].
  apply find_nat_is_Some in E as [k' Hk']. by rewrite Hk' in Ha.
Qed.

Lemma contains_false_find s m :
  Py.contains m s = false → Py.find_nat s m = None.
Proof. unfold Py.contains. by destruct (Py.find_nat s m). Qed.

Lemma no_https_behind_http rest :
  Py.contains (u "http") rest = false →
  Py.contains (u "https://") (u "http://" ++ rest) = false.
Proof.
  intros H. assert (H' : Py.find_nat rest (u "https://") = None).
  { apply contains_false_find.
    replace (u "https://") with (u "http" ++ u "s://")
      by (vm_compute; reflexivity).
    by apply contains_longer. }
  unfold Py.contains.
  let v := eval vm_compute in (u "http://") in change (u "http://") with v.
  let v := eval vm_compute in (u "https://") in
    change (u "https://") with v in *.
  simpl. by rewrite H'.
Qed.

(** X18.  For an address in which "http" occurs nowhere behind the scheme,
    shortening removes the leading "https://" or "http://" and every slash
    at either end, and an address without scheme only loses its outer
    slashes; the result never starts or ends with a slash. *)
Theorem shorten_url_scheme rest :
  Py.contains (u "http") rest = false →
  shorten_url (u "https://" ++ rest) = Py.strip_chars rest (u "/")
  ∧ shorten_url (u "http://" ++ rest) = Py.strip_chars rest (u "/")
  ∧ shorten_url rest = Py.strip_chars rest (u "/")
  ∧ (∀ c, head (Py.strip_chars rest (u "/")) = Some c → c ≠ 47%N)
  ∧ (∀ c, last (Py.strip_chars rest (u "/")) = Some c → c ≠ 47%N).
Proof.
  intros H.
  assert (Hs : Py.contains (u "https://") rest = false).
  { replace (u "https://") with (u "http" ++ u "s://")
      by (vm_compute; reflexivity).
    by apply contains_longer. }
  assert (Hp : Py.contains (u "http://") rest = false).
  { replace (u "http://") with (u "http" ++ u "://")
      by (vm_compute; reflexivity).
    by apply contains_longer. }
  unfold shorten_url. split_and!.
  - rewrite replace_prefix by (vm_compute; discriminate). cbn [app].
    by rewrite (replace_absent rest _ _ Hs), (replace_absent rest _ _ Hp).
  - rewrite (replace_absent (u "http://" ++ rest))
      by (by apply no_https_behind_http).
    rewrite replace_prefix by (vm_compute; discriminate). cbn [app].
    by rewrite (replace_absent rest _ _ Hp).
  - by rewrite (replace_absent rest _ _ Hs), (replace_absent rest _ _ Hp).
  - destruct (strip_by_split (fun c => Py.mem c (u "/")) rest)
      as (l & r & _ & _ & _ & Hh & _).
    intros c Hc ->. specialize (Hh _ Hc). vm_compute in Hh. done.
  - destruct (strip_by_split (fun c => Py.mem c (u "/")) rest)
      as (l & r & _ & _ & _ & _ & Hl).
    intros c Hc ->. specialize (Hl _ Hc). vm_compute in Hl. done.
Qed.

Lemma shorten_url_scheme_witness :
  shorten_url (u "https://" ++ u "hal.science/hal-01/")
  = Py.strip_chars (u "hal.science/hal-01/") (u "/").
Proof.
  refine (proj1 (shorten_url_scheme (u "hal.science/hal-01/") _)).
  vm_compute. reflexivity.
Defined.

(** ** The order of the lines in a bucket *)

Lemma filter_eq_cons_inv {A} (P : A → Prop) `{∀ x, Decision (P x)} l x b :
  filter P l = x :: b →
  ∃ l1 l2, l = l1 ++ x :: l2 ∧ filter P l1 = [] ∧ filter P l2 = b.
Proof.
  induction l as [|y l IH]; [done|].
  rewrite filter_cons. case_decide as Hy.
  - intros [= -> <-]. by exists [], l.
  - intros (l1 & l2 & -> & H1 & H2)%IH. exists (y :: l1), l2.
    split; [done|]. split; [|done]. by rewrite filter_cons_False.
Qed.

Lemma filter_eq_app_cons_inv {A} (P : A → Prop) `{∀ x, Decision (P x)}
    l a x b :
  filter P l = a ++ x :: b →
  ∃ l1 l2, l = l1 ++ x :: l2 ∧ filter P l1 = a ∧ filter P l2 = b.
Proof.
  revert l. induction a as [|y a IH]; intros l.
  - apply filter_eq_cons_inv.
  - cbn [app]. intros Hl.
    assert (Hy : P y).
    { assert (Hin : y ∈ filter P l) by (rewrite Hl; by left).
      by apply list_elem_of_filter in Hin as [? _]. }
    apply filter_eq_cons_inv in Hl as (l0 & l' & -> & H0 & Hl').
    apply IH in Hl' as (l1 & l2 & -> & H1 & H2).
    exists (l0 ++ y :: l1), l2. split; [by rewrite <- app_assoc|].
    split; [|done].
    by rewrite filter_app, H0, filter_cons_True, H1.
Qed.

Lemma sort_reverse_keeps_order (key : entry → str) l1 e1 l2 e2 l3 :
  key e1 = key e2 →
  ∃ s1 s2 s3,
    sort_reverse key (l1 ++ e1 :: l2 ++ e2 :: l3) = s1 ++ e1 :: s2 ++ e2 :: s3.
Proof.
  intros Hk.
  set (P := fun e => key e = key e1).
  assert (Hf : filter P (sort_reverse key (l1 ++ e1 :: l2 ++ e2 :: l3))
               = filter P l1 ++ e1 :: filter P l2 ++ e2 :: filter P l3).
  { unfold P. rewrite (insert_desc_filter_all key (key e1)).
    rewrite filter_app, filter_cons_True by done.
    rewrite filter_app, filter_cons_True by congruence. done. }
  apply filter_eq_app_cons_inv in Hf as (s1 & s' & -> & _ & Hf).
  apply filter_eq_app_cons_inv in Hf as (s2 & s3 & -> & _ & _).
  by exists s1, s2, s3.
Qed.

(** Lines stand in a bucket the way their records stand after the sort. *)
Lemma bucket_order_of_sorted hl es e1 e2 s1 s2 s3 :
  sort_reverse year_key es = s1 ++ e1 :: s2 ++ e2 :: s3 →
  (∀ e, e ∈ es → is_Some (e !! u "ENTRYTYPE")) →
  ∃ b, publications hl es = Ok b ∧
       ∀ html cat line1 line2,
         format_publication hl e1 html = Ok (Some (cat, line1)) →
         format_publication hl e2 html = Ok (Some (cat, line2)) →
         precedes (shown html line1) (shown html line2) (pub_bucket b html cat).
Proof.
  intros Hsort Hes. unfold publications.
  rewrite pub_loop_lines; cycle 1.
  { intros e He. apply Hes. by rewrite <- (sort_reverse_perm year_key es). }
  eexists. split; [done|].
  intros html cat line1 line2 Hf1 Hf2.
  pose proof (pub_lines_precede hl html cat _ _ _ _ _ _ _ _ Hsort Hf1 Hf2)
    as Hp.
  unfold pub_bucket. cbn [journal_tex_entries conf_tex_entries
    journal_html_entries conf_html_entries no_pubs app].
  destruct (format_publication_Some_inv _ _ _ _ _ Hf1) as [[_ ->]|[_ ->]].
  - rewrite eqb_refl. by destruct html.
  - replace (Py.eqb (u "conference") (u "journal")) with false
      by (vm_compute; reflexivity).
    rewrite eqb_refl. by destruct html.
Qed.

(** X19.  Among records whose years are strings of the same number of
    decimal digits the sort is the sort by year as a number: the record of
    the later year stands before the record of the earlier one. *)
Theorem sort_by_numeric_year n es e1 e2 :
  e1 ∈ es → e2 ∈ es →
  digit_year n e1 → digit_year n e2 →
  (decimal (field e2 "year") < decimal (field e1 "year"))%N →
  ∃ l1 l2 l3, sort_reverse year_key es = l1 ++ e1 :: l2 ++ e2 :: l3.
Proof.
  intros H1 H2 (y1 & Hy1 & Hn1 & Hd1) (y2 & Hy2 & Hn2 & Hd2) Hlt.
  apply sort_reverse_order; [done | done |].
  unfold year_key, field, get in *. rewrite Hy1, Hy2 in *.
  apply ltb_decimal; [congruence | done | done | done].
Qed.

Lemma sort_by_numeric_year_witness :
  ∃ l1 l2 l3,
    sort_reverse year_key [of_2019; dated] = l1 ++ dated :: l2 ++ of_2019 :: l3.
Proof.
  apply (sort_by_numeric_year 4 [of_2019; dated] dated of_2019).
  - apply (bool_decide_unpack _). vm_compute. exact I.
  - apply (bool_decide_unpack _). vm_compute. exact I.
  - exists (u "2020"). split_and!; vm_compute; reflexivity.
  - exists (u "2019"). split_and!; vm_compute; reflexivity.
  - vm_compute. reflexivity.
Defined.

(** X20.  Records of the same year keep the order of the bibliography: when
    one stands before the other in the input and their year keys are equal,
    its fragment comes first in every bucket they share, in both
    dialects. *)
Theorem equal_years_keep_order hl l1 e1 l2 e2 l3 :
  let es := l1 ++ e1 :: l2 ++ e2 :: l3 in
  year_key e1 = year_key e2 →
  (∀ e, e ∈ es → is_Some (e !! u "ENTRYTYPE")) →
  ∃ b, publications hl es = Ok b ∧
       ∀ html cat line1 line2,
         format_publication hl e1 html = Ok (Some (cat, line1)) →
         format_publication hl e2 html = Ok (Some (cat, line2)) →
         precedes (shown html line1) (shown html line2) (pub_bucket b html cat).
Proof.
  intros es Hk Hes.
  destruct (sort_reverse_keeps_order year_key l1 e1 l2 e2 l3 Hk)
    as (s1 & s2 & s3 & Hsort).
  by apply (bucket_order_of_sorted hl es e1 e2 s1 s2 s3).
Qed.

Lemma equal_years_keep_order_witness :
  ∃ b, publications (u "Two") [of_2019; dated; also_2020] = Ok b ∧
       ∀ html cat line1 line2,
         format_publication (u "Two") dated html = Ok (Some (cat, line1)) →
         format_publication (u "Two") also_2020 html = Ok (Some (cat, line2)) →
         precedes (shown html line1) (shown html line2) (pub_bucket b html cat).
Proof.
  apply (equal_years_keep_order (u "Two") [of_2019] dated [] also_2020 []).
  - vm_compute. reflexivity.
  - intros e He. apply (bool_decide_unpack _).
    repeat (apply elem_of_cons in He as [->|He]; [vm_compute; exact I|]).
    by apply elem_of_nil in He.
Defined.

(** ** Text without backslash *)

(** X21.  On a text without backslash no entry of the table applies, and
    the normalization amounts to dropping the braces. *)
Theorem latex_to_unicode_without_backslash s :
  forallb (fun c => negb (c =? 92)%N) s = true →
  latex_to_unicode s = remove_braces s.
Proof.
  intros Hs. unfold latex_to_unicode. f_equal.
  assert (Habsent : ∀ k v,
    forallb (fun c => negb (c =? 92)%N) k = false → Py.replace s k v = s).
  { intros k v Hk. apply replace_absent.
    unfold Py.contains. destruct (Py.find_nat s k) as [i|] eqn:E; [|done].
    exfalso. apply find_nat_Some in E as [[Hi Ht] _].
    assert (Hsub : forallb (fun c => negb (c =? 92)%N) k = true);
      [|congruence].
    rewrite <- Ht. eapply forallb_sub; [|exact Hs].
    etrans; [apply subseteq_take | apply subseteq_drop]. }
  unfold apply_replacements, replacements. cbn [fold_left fst snd].
  rewrite !Habsent by (vm_compute; reflexivity). done.
Qed.

Lemma latex_to_unicode_without_backslash_witness :
  latex_to_unicode (u "{GPU} methods for {B}ayes")
  = remove_braces (u "{GPU} methods for {B}ayes").
Proof.
  apply latex_to_unicode_without_backslash. vm_compute. reflexivity.
Defined.

(** ** Splicing again *)

Lemma Ok_inj {A} (a b : A) : Ok a = Ok b → a = b.
Proof. by intros [= ->]. Qed.

(** X22.  A successful splice leaves both markers in place for the next
    run: splicing its result again with the same markers, whatever the new
    content, never raises. *)
Theorem splice_repeatable text B E C C' r :
  replace_between_markers text B E C = Ok r →
  ∃ r', replace_between_markers r B E C' = Ok r'.
Proof.
  intros Hr.
  destruct (Py.find_nat text B) as [i|] eqn:HB;
    [|by rewrite splice_begin_absent in Hr].
  destruct (Py.find_nat (drop i text) E) as [d|] eqn:HE;
    [|by rewrite (splice_end_absent text B E C i) in Hr].
  rewrite (splice_found text B E C i d HB HE) in Hr.
  apply Ok_inj in Hr. subst r.
  pose proof (find_nat_le _ _ _ HB) as Hi.
  apply find_nat_Some in HB as [HBocc _].
  apply find_nat_drop_Some in HE as (_ & HEocc & _); [|done].
  set (pre := take i text).
  assert (Hpre : length pre = i) by (unfold pre; rewrite length_take; lia).
  set (post := drop (i + d + length E) text).
  set (r := take (i + length B) text ++ nl ++ C ++ nl ++ drop (i + d) text).
  assert (Hr1 : r = pre ++ B ++ (nl ++ C ++ nl ++ drop (i + d) text)).
  { unfold r. rewrite <- take_take_drop. destruct HBocc as [_ ->].
    by rewrite <- !app_assoc. }
  assert (Hr2 : r = (pre ++ B ++ nl ++ C ++ nl) ++ E ++ post).
  { rewrite Hr1.
    rewrite <- (take_drop (length E) (drop (i + d) text)).
    destruct HEocc as [_ ->]. rewrite drop_drop.
    by rewrite <- !app_assoc. }
  assert (HrB : occurs_at r B i).
  { rewrite Hr1, <- Hpre. apply occurs_at_app_here. }
  assert (HrE : occurs_at r E (i + length B + length C + 2)).
  { rewrite Hr2.
    replace (i + length B + length C + 2)
      with (length (pre ++ B ++ nl ++ C ++ nl))
      by (rewrite !length_app; simpl; lia).
    apply occurs_at_app_here. }
  destruct (find_nat_is_Some _ _ _ HrB) as [i' Hi'].
  assert (Hle : i' ≤ i).
  { apply find_nat_Some in Hi' as [_ Hmin].
    destruct (decide (i' ≤ i)); [done|]. exfalso. apply (Hmin i); [lia|done]. }
  pose proof (find_nat_le _ _ _ Hi') as Hi'r.
  assert (HE' : is_Some (Py.find_nat (drop i' r) E)).
  { apply (find_nat_is_Some _ _ (i + length B + length C + 2 - i')).
    apply occurs_at_drop; [done|].
    by replace (i' + (i + length B + length C + 2 - i'))
      with (i + length B + length C + 2) by lia. }
  destruct HE' as [d' Hd'].
  rewrite (splice_found r B E C' i' d' Hi' Hd'). eauto.
Qed.

Lemma splice_repeatable_witness :
  ∃ r', replace_between_markers
          (u "ab" ++ nl ++ u "x" ++ nl ++ u "b" ++ nl ++ u "x")
          (u "ab") (u "b" ++ nl ++ u "x") (u "y") = Ok r'.
Proof.
  refine (splice_repeatable (u "ab__b" ++ nl ++ u "x") (u "ab")
            (u "b" ++ nl ++ u "x") (u "x") (u "y") _ _).
  vm_compute. reflexivity.
Defined.
